(** * The TMDB cache of convert-wordpress-posts

    A shallow embedding of [tmdb_cache.js] and of the batch driver
    [convert_wordpress_posts.js]: the cache path functions, the freshness
    test, the promise-based cache-then-fetch resolvers and the event loop
    on which their callbacks run.

    - JavaScript values are the inductive [value]; the only numbers are the
      integers (a double that is an integer, printed without exponent).
    - Strings are [string]; a character stands for one code unit below 256.
      A file holds the string that was written to it: the UTF-8 coding done
      by [fs.writeFile] and undone when the buffer is read back is left out.
    - Dates are milliseconds since the epoch, in [Z].
    - Callbacks are defunctionalised: one constructor of [callback] or
      [handler] per function literal of the source, interpreted by [invoke]
      and [apply_handler]. *)

From Stdlib Require Import ZArith Ascii String List Lia DecimalString DecimalZ DecimalPos DecimalFacts.
From stdpp Require Import base option list gmap strings.

Local Open Scope Z_scope.


(** ** Values *)

Unset Elimination Schemes.
Inductive value : Type :=
| VUndefined
| VNull
| VBool (b : bool)
| VNum (n : Z)
| VStr (s : string)
| VArr (l : list value)
| VObj (l : list (string * value))
| VError (name message : string).
Set Elimination Schemes.

Section value_induction.
Variable P : value -> Prop.
Hypothesis Hundef : P VUndefined.
Hypothesis Hnull : P VNull.
Hypothesis Hbool : forall b, P (VBool b).
Hypothesis Hnum : forall n, P (VNum n).
Hypothesis Hstr : forall s, P (VStr s).
Hypothesis Harr : forall l, Forall P l -> P (VArr l).
Hypothesis Hobj : forall l, Forall (fun kv => P (snd kv)) l -> P (VObj l).
Hypothesis Herr : forall n m, P (VError n m).

Fixpoint value_ind (v : value) : P v :=
  match v with
  | VUndefined => Hundef
  | VNull => Hnull
  | VBool b => Hbool b
  | VNum n => Hnum n
  | VStr s => Hstr s
  | VArr l =>
      Harr l ((fix go (l : list value) : Forall P l :=
                 match l with
                 | [] => @List.Forall_nil _ _
                 | x :: r => @List.Forall_cons _ _ x r (value_ind x) (go r)
                 end) l)
  | VObj l =>
      Hobj l ((fix go (l : list (string * value)) : Forall (fun kv => P (snd kv)) l :=
                 match l with
                 | [] => @List.Forall_nil _ _
                 | kv :: r => @List.Forall_cons _ _ kv r (value_ind (snd kv)) (go r)
                 end) l)
  | VError n m => Herr n m
  end.
End value_induction.

(** [x === null] and [_.isUndefined(x)]. *)
Definition isNull (v : value) : bool :=
  match v with VNull => true | _ => false end.

Definition isUndefined (v : value) : bool :=
  match v with VUndefined => true | _ => false end.

Definition dquote : ascii := "034"%char.
Definition backslash : ascii := "092"%char.

(** Decimal text of an integer, as [Number.prototype.toString] prints one. *)
Definition Z_to_string (n : Z) : string := NilZero.string_of_int (Z.to_int n).

(** [Array.prototype.join]. *)
Definition join (sep : string) (l : list string) : string := String.concat sep l.

(** The string a value becomes when [+] appends it to a string. *)
Fixpoint ToString (v : value) : string :=
  match v with
  | VUndefined => "undefined"
  | VNull => "null"
  | VBool true => "true"
  | VBool false => "false"
  | VNum n => Z_to_string n
  | VStr s => s
  | VArr l =>
      join "," (map (fun x => match x with
                              | VUndefined | VNull => ""
                              | _ => ToString x
                              end) l)
  | VObj _ => "[object Object]"
  | VError name message =>
      if String.eqb message "" then name else name +:+ ": " +:+ message
  end.

(** Property read [v.k] (or [v[k]]): a [TypeError] on [null] and
    [undefined], [undefined] for a property that is absent.  None of the
    names the program reads is found on a prototype. *)
Fixpoint assoc (k : string) (l : list (string * value)) : option value :=
  match l with
  | [] => None
  | (k', x) :: r => if String.eqb k k' then Some x else assoc k r
  end.

Definition TypeError (what : string) : value := VError "TypeError" what.

Definition get (v : value) (k : string) : value + value :=
  match v with
  | VUndefined => inr (TypeError ("Cannot read property '" +:+ k +:+ "' of undefined"))
  | VNull => inr (TypeError ("Cannot read property '" +:+ k +:+ "' of null"))
  | VObj l => inl (default VUndefined (assoc k l))
  | VError name message =>
      inl (if String.eqb k "message" then VStr message
           else if String.eqb k "name" then VStr name else VUndefined)
  | _ => inl VUndefined
  end.

(** [results[i]] on the array a [Promise.all] resolves with. *)
Definition get_index (v : value) (i : nat) : value + value :=
  match v with
  | VUndefined => inr (TypeError "Cannot read property of undefined")
  | VNull => inr (TypeError "Cannot read property of null")
  | VArr l => inl (default VUndefined (l !! i))
  | _ => inl VUndefined
  end.

(** [o[k] = x]: an existing property keeps its place. *)
Fixpoint obj_set (k : string) (x : value) (l : list (string * value)) : list (string * value) :=
  match l with
  | [] => [(k, x)]
  | (k', y) :: r => if String.eqb k k' then (k', x) :: r else (k', y) :: obj_set k x r
  end.

(** ** JSON.stringify and JSON.parse

    The two built-ins, after ECMA-262 (SerializeJSONProperty, QuoteJSONString
    and the JSON grammar), on the values above.  A number token with a
    fraction or an exponent denotes a double outside [value]: [JSON_parse]
    gives no result for it, as it does for a syntax error. *)

Definition is_char (c d : ascii) : bool := Ascii.eqb c d.

Definition hex_digit (n : N) : ascii :=
  match n with
  | 0 => "0" | 1 => "1" | 2 => "2" | 3 => "3" | 4 => "4" | 5 => "5" | 6 => "6"
  | 7 => "7" | 8 => "8" | 9 => "9" | 10 => "a" | 11 => "b" | 12 => "c"
  | 13 => "d" | 14 => "e" | _ => "f"
  end%N%char.

Definition escape_char (c : ascii) : string :=
  if is_char c dquote then String backslash (String dquote "")
  else if is_char c backslash then String backslash (String backslash "")
  else
    let n := N_of_ascii c in
    if (n =? 8)%N then String backslash "b"
    else if (n =? 9)%N then String backslash "t"
    else if (n =? 10)%N then String backslash "n"
    else if (n =? 12)%N then String backslash "f"
    else if (n =? 13)%N then String backslash "r"
    else if (n <? 32)%N then
      String backslash (String "u" (String "0" (String "0"
        (String (hex_digit (n / 16)) (String (hex_digit (n mod 16)) "")))))
    else String c "".

Fixpoint escape (s : string) : string :=
  match s with
  | "" => ""
  | String c r => escape_char c +:+ escape r
  end.

Definition quote (s : string) : string :=
  String dquote (escape s +:+ String dquote "").

(** A property whose value is [undefined] is left out of an object; in an
    array it is written [null]. *)
Fixpoint ser (v : value) : string :=
  match v with
  | VUndefined => "null"
  | VNull => "null"
  | VBool true => "true"
  | VBool false => "false"
  | VNum n => Z_to_string n
  | VStr s => quote s
  | VArr l => "[" +:+ join "," (map ser l) +:+ "]"
  | VObj l =>
      "{" +:+ join ","
        (omap id
           (map (fun kv => if isUndefined (snd kv) then None
                           else Some (quote (fst kv) +:+ ":" +:+ ser (snd kv))) l))
      +:+ "}"
  | VError _ _ => "{}"
  end.

(** [JSON.stringify(v)]; [None] is the result [undefined]. *)
Definition JSON_stringify (v : value) : option string :=
  if isUndefined v then None else Some (ser v).

Definition is_ws (c : ascii) : bool :=
  is_char c " " || is_char c "009" || is_char c "010" || is_char c "013".

Fixpoint skip_ws (s : string) : string :=
  match s with
  | String c r => if is_ws c then skip_ws r else s
  | "" => ""
  end.

Definition hex_val (c : ascii) : option N :=
  let n := N_of_ascii c in
  if (48 <=? n)%N && (n <=? 57)%N then Some (n - 48)%N
  else if (97 <=? n)%N && (n <=? 102)%N then Some (n - 87)%N
  else if (65 <=? n)%N && (n <=? 70)%N then Some (n - 55)%N
  else None.

Definition hex4 (a b c d : ascii) : option N :=
  x ← hex_val a; y ← hex_val b; z ← hex_val c; w ← hex_val d;
  Some (((x * 16 + y) * 16 + z) * 16 + w)%N.

Definition unescape (e : ascii) : option ascii :=
  if is_char e dquote then Some dquote
  else if is_char e backslash then Some backslash
  else if is_char e "/" then Some "/"%char
  else if is_char e "b" then Some "008"%char
  else if is_char e "f" then Some "012"%char
  else if is_char e "n" then Some "010"%char
  else if is_char e "r" then Some "013"%char
  else if is_char e "t" then Some "009"%char
  else None.

(** The characters of a string literal, after its opening quote. *)
Fixpoint parse_chars (s : string) : option (string * string) :=
  match s with
  | "" => None
  | String c r =>
      if is_char c dquote then Some ("", r)
      else if is_char c backslash then
        match r with
        | "" => None
        | String e r1 =>
            if is_char e "u" then
              match r1 with
              | String a (String b (String c' (String d r2))) =>
                  n ← hex4 a b c' d;
                  if (n <? 256)%N then
                    '(t, r3) ← parse_chars r2; Some (String (ascii_of_N n) t, r3)
                  else None
              | _ => None
              end
            else
              ch ← unescape e;
              '(t, r3) ← parse_chars r1; Some (String ch t, r3)
        end
      else if (N_of_ascii c <? 32)%N then None
      else '(t, r3) ← parse_chars r; Some (String c t, r3)
  end.

Definition digit_of (c : ascii) : option (Decimal.uint -> Decimal.uint) :=
  match N_of_ascii c with
  | 48 => Some Decimal.D0 | 49 => Some Decimal.D1 | 50 => Some Decimal.D2
  | 51 => Some Decimal.D3 | 52 => Some Decimal.D4 | 53 => Some Decimal.D5
  | 54 => Some Decimal.D6 | 55 => Some Decimal.D7 | 56 => Some Decimal.D8
  | 57 => Some Decimal.D9 | _ => None
  end%N.

Fixpoint parse_digits (s : string) : Decimal.uint * string :=
  match s with
  | "" => (Decimal.Nil, "")
  | String c r =>
      match digit_of c with
      | Some d => let '(u, r') := parse_digits r in (d u, r')
      | None => (Decimal.Nil, s)
      end
  end.

(** [0], or a digit that is not [0] followed by digits. *)
Definition parse_int (s : string) : option (Z * string) :=
  match s with
  | "" => None
  | String c r =>
      if is_char c "0" then Some (0, r)
      else match parse_digits s with
           | (Decimal.Nil, _) => None
           | (u, r') => Some (Z.of_uint u, r')
           end
  end.

Definition starts_frac_or_exp (s : string) : bool :=
  match s with
  | String c _ => is_char c "." || is_char c "e" || is_char c "E"
  | "" => false
  end.

Definition parse_number (s : string) : option (value * string) :=
  let '(neg, s1) := match s with
                    | String c r => if is_char c "-" then (true, r) else (false, s)
                    | "" => (false, s)
                    end in
  '(n, r) ← parse_int s1;
  if starts_frac_or_exp r then None
  else Some (VNum (if neg then - n else n), r).

Fixpoint expect (lit s : string) : option string :=
  match lit with
  | "" => Some s
  | String c lit' =>
      match s with
      | String d s' => if is_char c d then expect lit' s' else None
      | "" => None
      end
  end.

(** The object a member list builds: a repeated name overwrites. *)
Definition from_members (l : list (string * value)) : list (string * value) :=
  foldl (fun o kv => obj_set (fst kv) (snd kv) o) [] l.

Fixpoint parse_value (fuel : nat) (s : string) {struct fuel} : option (value * string) :=
  match fuel with
  | O => None
  | S fuel =>
      match skip_ws s with
      | "" => None
      | String c r =>
          if is_char c "n" then r' ← expect "ull" r; Some (VNull, r')
          else if is_char c "t" then r' ← expect "rue" r; Some (VBool true, r')
          else if is_char c "f" then r' ← expect "alse" r; Some (VBool false, r')
          else if is_char c dquote then '(t, r') ← parse_chars r; Some (VStr t, r')
          else if is_char c "[" then
            match skip_ws r with
            | "" => None
            | String c' r' =>
                if is_char c' "]" then Some (VArr [], r')
                else '(l, r'') ← parse_elements fuel (String c' r'); Some (VArr l, r'')
            end
          else if is_char c "{" then
            match skip_ws r with
            | "" => None
            | String c' r' =>
                if is_char c' "}" then Some (VObj [], r')
                else '(l, r'') ← parse_members fuel (String c' r');
                     Some (VObj (from_members l), r'')
            end
          else parse_number (String c r)
      end
  end
with parse_elements (fuel : nat) (s : string) {struct fuel} : option (list value * string) :=
  match fuel with
  | O => None
  | S fuel =>
      '(v, r) ← parse_value fuel s;
      match skip_ws r with
      | "" => None
      | String c r' =>
          if is_char c "," then '(l, r'') ← parse_elements fuel r'; Some (v :: l, r'')
          else if is_char c "]" then Some ([v], r')
          else None
      end
  end
with parse_members (fuel : nat) (s : string) {struct fuel}
    : option (list (string * value) * string) :=
  match fuel with
  | O => None
  | S fuel =>
      match skip_ws s with
      | "" => None
      | String q r =>
          if is_char q dquote then
            '(k, r1) ← parse_chars r;
            match skip_ws r1 with
            | "" => None
            | String c r2 =>
                if is_char c ":" then
                  '(v, r3) ← parse_value fuel r2;
                  match skip_ws r3 with
                  | "" => None
                  | String c' r4 =>
                      if is_char c' "," then
                        '(l, r5) ← parse_members fuel r4; Some ((k, v) :: l, r5)
                      else if is_char c' "}" then Some ([(k, v)], r4)
                      else None
                  end
                else None
            end
          else None
      end
  end.

(** [JSON.parse(text)]; [None] when it throws. *)
Definition JSON_parse (s : string) : option value :=
  '(v, r) ← parse_value (2 * String.length s) s;
  match skip_ws r with
  | "" => Some v
  | _ => None
  end.

(** The values of JSON: no [undefined], no error object, no repeated
    property name, integers that a double holds exactly. *)
Definition safe_integer (n : Z) : bool := (Z.abs n <=? 9007199254740991)%Z.

Fixpoint nodupb (l : list string) : bool :=
  match l with
  | [] => true
  | k :: r => negb (existsb (String.eqb k) r) && nodupb r
  end.

Fixpoint is_json (v : value) : bool :=
  match v with
  | VUndefined | VError _ _ => false
  | VNull | VBool _ | VStr _ => true
  | VNum n => safe_integer n
  | VArr l => forallb is_json l
  | VObj l => forallb (fun kv => is_json (snd kv)) l && nodupb (map fst l)
  end.

(** ** Cache paths and freshness (tmdb_cache.js, lines 9-54) *)

Definition configCacheFilePath : string := "./tmdb_cache/configuration.json".
Definition infoCachePath : string := "./tmdb_cache/movie_info/".
Definition postersCachePath : string := "./tmdb_cache/posters/".
Definition defaultTtl : Z := 1000 * 60 * 60 * 24 * 30.

Definition getInfoCacheFilePathFromId (tmdb_id : string) : string :=
  (infoCachePath +:+ tmdb_id) +:+ ".json".

Definition getMoviePosterCachePath (posterFileName size : string) : string :=
  (postersCachePath +:+ size) +:+ posterFileName.

(** [ttl ? ttl : defaultTtl]: a missing and a zero [ttl] are both falsy. *)
Definition effective_ttl (ttl : option Z) : Z :=
  match ttl with
  | Some t => if (t =? 0)%Z then defaultTtl else t
  | None => defaultTtl
  end.

(** [moment(new Date()).subtract(ttl, 'milliseconds')] at time [now]. *)
Definition oldestValidDate (now : Z) (ttl : option Z) : Z := (now - effective_ttl ttl)%Z.

(** [moment(a).isBefore(b)]. *)
Definition isBefore (a b : Z) : bool := (a <? b)%Z.

(** ** The world outside the process *)

Record file := File { contents : string; mtime : Z }.

Inductive http_result :=
| HttpError (err : value)
| HttpResponse (statusCode : Z) (body : string).

Record world := World {
  files : gmap string file;
  clock : Z;
  (** paths [fs.writeFile] and a write stream fail on *)
  unwritable : string -> bool;
  (** what the service passes to the callback, as [(err, data)] *)
  movieInfo_response : string -> value * value;
  configuration_response : value * value;
  request_response : string -> http_result;
  (** [new Date(s).toDateString()] *)
  toDateString : string -> string
}.

Definition set_files (f : gmap string file) (w : world) : world :=
  World f (clock w) (unwritable w) (movieInfo_response w) (configuration_response w)
        (request_response w) (toDateString w).

Definition set_clock (t : Z) (w : world) : world :=
  World (files w) t (unwritable w) (movieInfo_response w) (configuration_response w)
        (request_response w) (toDateString w).

(** ** Promises, callbacks and the process state *)

Definition pid := nat.

(** The function literals passed to [then] and [catch], with the variables
    they close over. *)
Inductive handler :=
| Promise_all_resolveElement (a i : nat)
| Promise_all_reject (q : pid)
| validateCacheFile_then (p : pid)
| validateCacheFile_catch (p : pid)
| fetchMovieInfo_saved
| fetchMovieInfo_saveFailed
| getMovieInfo_then (tmdb_id : string) (p : pid)
| getMovieInfo_catch (tmdb_id : string) (p : pid)
| fetchAPIConfiguration_saved
| fetchAPIConfiguration_saveFailed
| getAPIConfiguration_then (p : pid)
| getAPIConfiguration_catch (p : pid)
| getTMDBImagesBaseUrl_then (p : pid)
| getTMDBImagesBaseUrl_catch (p : pid)
| fetchAndSaveMoviePoster_then (posterFileName size destPath : string) (p : pid)
| fetchAndSaveMoviePoster_catch (p : pid)
| getMoviePoster_then (posterFileName destPath : string) (p : pid)
| getMoviePoster_catch (posterFileName size : string) (p : pid)
| getMoviePoster_fetched (p : pid)
| getMoviePoster_fetchFailed (p : pid)
| main_then (i : nat)
| main_catch.

(** The callbacks handed to [fs], to the service and to [request]. *)
Inductive callback :=
| validateCacheFileDate_cb (p : pid)
| validateCacheFileContents_cb (p : pid)
| saveMovieInfo_cb (filePath : string) (p : pid)
| fetchMovieInfo_cb (tmdb_id : string) (p : pid)
| saveAPIConfiguration_cb (p : pid)
| fetchAPIConfiguration_cb (p : pid)
| request_listeners (destPath : string) (p : pid)
| pipe_close (destPath : string) (p : pid).

Inductive io_op :=
| fs_stat (path : string)
| fs_readFile (path : string)
| fs_writeFile (path data : string)
| MovieDB_movieInfo (id : string)
| MovieDB_configuration
| request (url : string)
| pipe (destPath body : string).

Inductive io_result :=
| io_error (err : value)
| io_stats (mtime : Z)
| io_contents (data : string)
| io_done
| io_reply (err data : value)
| io_response (statusCode : Z) (body : string).

Record task := Task { task_op : io_op; task_cb : callback }.

Inductive settled :=
| Fulfilled (v : value)
| Rejected (reason : value).

Record reaction := Reaction {
  onFulfilled : option handler;
  onRejected : option handler;
  derived : pid
}.

Inductive promise :=
| Pending (reactions : list reaction)
| Settled (o : settled).

Record job := Job { job_reaction : reaction; job_outcome : settled }.

Record all_state := AllState {
  all_values : list value;
  all_remaining : nat;
  all_target : pid
}.

(** What the process does. *)
Inductive event :=
| console_log (args : list value)
| console_error (args : list value)
| started (op : io_op)
| finished (op : io_op) (r : io_result)
| settles (p : pid) (o : settled)
| assigns_tmdbImagesBaseUrl (v : value).

Record state := State {
  env : world;
  tmdbImagesBaseUrl : value;
  movies : list value;
  promises : list promise;
  alls : list all_state;
  microtasks : list job;
  pending : list task;
  (** the events so far, the latest first *)
  trace : list event;
  crashed : option value
}.

Definition set_env (w : world) (s : state) : state :=
  State w (tmdbImagesBaseUrl s) (movies s) (promises s) (alls s) (microtasks s)
        (pending s) (trace s) (crashed s).
Definition set_tmdbImagesBaseUrl (v : value) (s : state) : state :=
  State (env s) v (movies s) (promises s) (alls s) (microtasks s)
        (pending s) (trace s) (crashed s).
Definition set_movies (m : list value) (s : state) : state :=
  State (env s) (tmdbImagesBaseUrl s) m (promises s) (alls s) (microtasks s)
        (pending s) (trace s) (crashed s).
Definition set_promises (ps : list promise) (s : state) : state :=
  State (env s) (tmdbImagesBaseUrl s) (movies s) ps (alls s) (microtasks s)
        (pending s) (trace s) (crashed s).
Definition set_alls (a : list all_state) (s : state) : state :=
  State (env s) (tmdbImagesBaseUrl s) (movies s) (promises s) a (microtasks s)
        (pending s) (trace s) (crashed s).
Definition set_microtasks (js : list job) (s : state) : state :=
  State (env s) (tmdbImagesBaseUrl s) (movies s) (promises s) (alls s) js
        (pending s) (trace s) (crashed s).
Definition set_pending (ts : list task) (s : state) : state :=
  State (env s) (tmdbImagesBaseUrl s) (movies s) (promises s) (alls s) (microtasks s)
        ts (trace s) (crashed s).
Definition set_trace (t : list event) (s : state) : state :=
  State (env s) (tmdbImagesBaseUrl s) (movies s) (promises s) (alls s) (microtasks s)
        (pending s) t (crashed s).
Definition set_crashed (e : option value) (s : state) : state :=
  State (env s) (tmdbImagesBaseUrl s) (movies s) (promises s) (alls s) (microtasks s)
        (pending s) (trace s) e.

(** A process that has just started: the singleton is [undefined]. *)
Definition boot (w : world) : state :=
  State w VUndefined [] [] [] [] [] [] None.

(** ** Synchronous code: state and exceptions *)

Inductive result (A : Type) :=
| Normal (a : A)
| Throw (e : value).
Arguments Normal {A} a.
Arguments Throw {A} e.

Definition M (A : Type) : Type := state -> result A * state.

Global Instance M_ret : MRet M := fun A a s => (Normal a, s).
Global Instance M_bind : MBind M := fun A B k m s =>
  match m s with
  | (Normal a, s') => k a s'
  | (Throw e, s') => (Throw e, s')
  end.

Definition throw {A : Type} (e : value) : M A := fun s => (Throw e, s).
Definition modify (f : state -> state) : M unit := fun s => (Normal tt, f s).
Definition skip : M unit := mret tt.

(** A property read that may throw. *)
Definition read (r : value + value) : M value :=
  match r with
  | inl v => mret v
  | inr e => throw e
  end.

Definition emit (e : event) : M unit :=
  modify (fun s => set_trace (e :: trace s) s).

(** [new Date()]. *)
Definition Date_now : M Z := fun s => (Normal (clock (env s)), s).

Definition alloc_promise : M pid := fun s =>
  (Normal (length (promises s)), set_promises (promises s ++ [Pending []]) s).

Definition enqueue (js : list job) : M unit :=
  modify (fun s => set_microtasks (microtasks s ++ js) s).

(** The resolving functions of a promise: only the first call settles it. *)
Definition settle (p : pid) (o : settled) : M unit := fun s =>
  match promises s !! p with
  | Some (Pending rs) =>
      (Normal tt,
       set_trace (settles p o :: trace s)
         (set_microtasks (microtasks s ++ map (fun r => Job r o) rs)
            (set_promises (<[p := Settled o]> (promises s)) s)))
  | _ => (Normal tt, s)
  end.

Definition resolve (p : pid) (v : value) : M unit := settle p (Fulfilled v).
Definition reject (p : pid) (e : value) : M unit := settle p (Rejected e).

Definition subscribe (p : pid) (r : reaction) : M unit := fun s =>
  match promises s !! p with
  | Some (Pending rs) =>
      (Normal tt, set_promises (<[p := Pending (rs ++ [r])]> (promises s)) s)
  | Some (Settled o) => enqueue [Job r o] s
  | None => (Normal tt, s)
  end.

(** [p.then(h)] and [p.catch(h)]: each returns a new promise. *)
Definition then_ (p : pid) (h : handler) : M pid :=
  d ← alloc_promise; subscribe p (Reaction (Some h) None d);; mret d.

Definition catch_ (p : pid) (h : handler) : M pid :=
  d ← alloc_promise; subscribe p (Reaction None (Some h) d);; mret d.

(** [new Promise(executor)]: the executor runs at once; what it throws
    rejects the promise. *)
Definition new_Promise (executor : pid -> M unit) : M pid := fun s =>
  match alloc_promise s with
  | (Normal p, s1) =>
      match executor p s1 with
      | (Normal _, s2) => (Normal p, s2)
      | (Throw e, s2) => (Normal p, snd (reject p e s2))
      end
  | (Throw e, s1) => (Throw e, s1)
  end.

Fixpoint Promise_all_subscribe (a : nat) (q : pid) (i : nat) (ps : list pid) : M unit :=
  match ps with
  | [] => skip
  | p :: ps' =>
      d ← alloc_promise;
      subscribe p (Reaction (Some (Promise_all_resolveElement a i))
                            (Some (Promise_all_reject q)) d);;
      Promise_all_subscribe a q (S i) ps'
  end.

(** [Promise.all(ps)]. *)
Definition Promise_all (ps : list pid) : M pid :=
  q ← alloc_promise;
  a ← (fun s => (Normal (length (alls s)),
                 set_alls (alls s ++ [AllState (replicate (length ps) VUndefined)
                                               (length ps) q]) s));
  Promise_all_subscribe a q 0 ps;;
  match ps with
  | [] => resolve q (VArr [])
  | _ => skip
  end;;
  mret q.

Definition Promise_all_element (a i : nat) (v : value) : M unit := fun s =>
  match alls s !! a with
  | Some st =>
      let values := <[i := v]> (all_values st) in
      let remaining := pred (all_remaining st) in
      let s' := set_alls (<[a := AllState values remaining (all_target st)]> (alls s)) s in
      match remaining with
      | O => resolve (all_target st) (VArr values) s'
      | S _ => (Normal tt, s')
      end
  | None => (Normal tt, s)
  end.

(** Starting an asynchronous operation: its callback runs in a later turn
    of the event loop. *)
Definition start (op : io_op) (cb : callback) : M unit :=
  modify (fun s => set_pending (pending s ++ [Task op cb]) s);; emit (started op).

(** ** tmdb_cache.js *)

Definition log (s : string) : M unit := emit (console_log [VStr s]).

(** Lines 44-54.  [ttl] is [None] when the argument is left out. *)
Definition isValidCacheFileDate (fileDate : Z) (ttl : option Z) : M bool :=
  now ← Date_now;
  if isBefore fileDate (oldestValidDate now ttl) then
    log "Cache file is too old.";; mret false
  else mret true.

(** Lines 62-79. *)
Definition validateCacheFileDate (filePath : string) : M pid :=
  new_Promise (fun p => start (fs_stat filePath) (validateCacheFileDate_cb p)).

(** Lines 87-109. *)
Definition validateCacheFileContents (filePath : string) : M pid :=
  new_Promise (fun p => start (fs_readFile filePath) (validateCacheFileContents_cb p)).

(** Lines 117-130. *)
Definition validateCacheFile (filePath : string) : M pid :=
  isValidCacheFileDatePromise ← validateCacheFileDate filePath;
  isValidCacheFileContentsPromise ← validateCacheFileContents filePath;
  new_Promise (fun p =>
    a ← Promise_all [isValidCacheFileDatePromise; isValidCacheFileContentsPromise];
    t ← then_ a (validateCacheFile_then p);
    _ ← catch_ t (validateCacheFile_catch p);
    skip).

(** What [fs.writeFile] writes for the data it is given: a value that is
    not a buffer is turned into a string, [undefined] included. *)
Definition file_data (fileContents : option string) : string :=
  default "undefined" fileContents.

(** Lines 139-156. *)
Definition saveMovieInfo (tmdb_id : string) (movieInfo : value) : M pid :=
  new_Promise (fun p =>
    let filePath := getInfoCacheFilePathFromId tmdb_id in
    let fileContents := JSON_stringify movieInfo in
    start (fs_writeFile filePath (file_data fileContents)) (saveMovieInfo_cb filePath p)).

(** Lines 166-186: [resolve] and [reject] are those of the promise [p]. *)
Definition fetchMovieInfo (tmdb_id : string) (p : pid) : M unit :=
  start (MovieDB_movieInfo tmdb_id) (fetchMovieInfo_cb tmdb_id p).

(** Lines 194-209. *)
Definition getMovieInfo (tmdb_id : string) : M pid :=
  new_Promise (fun p =>
    let cacheFilePath := getInfoCacheFilePathFromId tmdb_id in
    v ← validateCacheFile cacheFilePath;
    t ← then_ v (getMovieInfo_then tmdb_id p);
    _ ← catch_ t (getMovieInfo_catch tmdb_id p);
    skip).

(** Lines 217-233. *)
Definition saveAPIConfiguration (configData : value) : M pid :=
  new_Promise (fun p =>
    let fileContents := JSON_stringify configData in
    start (fs_writeFile configCacheFilePath (file_data fileContents))
          (saveAPIConfiguration_cb p)).

(** Lines 242-262. *)
Definition fetchAPIConfiguration (p : pid) : M unit :=
  start MovieDB_configuration (fetchAPIConfiguration_cb p).

(** Lines 269-282. *)
Definition getAPIConfiguration : M pid :=
  new_Promise (fun p =>
    v ← validateCacheFile configCacheFilePath;
    t ← then_ v (getAPIConfiguration_then p);
    _ ← catch_ t (getAPIConfiguration_catch p);
    skip).

(** Lines 287-307. *)
Definition getTMDBImagesBaseUrl : M pid :=
  new_Promise (fun p s =>
    if negb (isUndefined (tmdbImagesBaseUrl s)) then
      (log "tmdbImagesBaseUrl already set.";;
       resolve p (tmdbImagesBaseUrl s)) s
    else
      (log "tmdbImagesBaseUrl not set.";;
       c ← getAPIConfiguration;
       t ← then_ c (getTMDBImagesBaseUrl_then p);
       _ ← catch_ t (getTMDBImagesBaseUrl_catch p);
       skip) s).

(** Lines 316-350. *)
Definition fetchAndSaveMoviePoster (posterFileName size : string) : M pid :=
  new_Promise (fun p =>
    let destPath := getMoviePosterCachePath posterFileName size in
    b ← getTMDBImagesBaseUrl;
    t ← then_ b (fetchAndSaveMoviePoster_then posterFileName size destPath p);
    _ ← catch_ t (fetchAndSaveMoviePoster_catch p);
    skip).

(** Lines 359-384.  [size] is [None] when the argument is left out. *)
Definition getMoviePoster (posterFileName : string) (size : option string) : M pid :=
  new_Promise (fun p =>
    let size := default "original" size in
    let destPath := getMoviePosterCachePath posterFileName size in
    v ← validateCacheFileDate destPath;
    t ← then_ v (getMoviePoster_then posterFileName destPath p);
    _ ← catch_ t (getMoviePoster_catch posterFileName size p);
    skip).

(** ** convert_wordpress_posts.js *)

(** One [item] of the export, with the fields the driver reads. *)
Record item := Item {
  pubDate : string;
  content_encoded : string;
  category : list string;
  postmeta : list (string * string)
}.

(** Lines 18-28. *)
Definition getMetaValue (metaKey : string) (metas : list (string * string)) : value :=
  match find (fun el => String.eqb (fst el) metaKey) metas with
  | None => VBool false
  | Some meta => VStr (snd meta)
  end.

Definition frequencies (c : string) : string :=
  if String.eqb c "first-view" then "first"
  else if String.eqb c "functional-first-time" then "functional-first"
  else c.

Definition push (x : value) (arr : value) : value :=
  match arr with
  | VArr l => VArr (l ++ [x])
  | _ => arr
  end.

(** Lines 30-54. *)
Definition processWPCategories (categories : list string) : list (string * value) :=
  foldl (fun movie c =>
           if String.eqb c "home" || String.eqb c "theater" || String.eqb c "plane"
           then obj_set "location" (VStr c) movie
           else if String.eqb c "first-view" || String.eqb c "functional-first-time"
                   || String.eqb c "repeat" || String.eqb c "regular"
           then obj_set "frequency" (VStr (frequencies c)) movie
           else obj_set "features"
                  (push (VStr c) (default VUndefined (assoc "features" movie))) movie)
        [("features", VArr [])] categories.

(** [_.extend(o, src)]. *)
Definition extend (o src : list (string * value)) : list (string * value) :=
  foldl (fun o kv => obj_set (fst kv) (snd kv) o) o src.

(** [_.pick(o, keys)]: the properties of [o] among [keys]. *)
Definition pick (o : value) (keys : list string) : list (string * value) :=
  match o with
  | VObj l => omap (fun k => pair k <$> assoc k l) keys
  | _ => []
  end.

(** What [_.forEach] iterates over. *)
Definition elements_of (c : value) : list value :=
  match c with
  | VArr l => l
  | VObj l => map snd l
  | VStr s => map (fun a => VStr (String a "")) (list_ascii_of_string s)
  | _ => []
  end.

Fixpoint genre_names (gs : list value) : M (list value) :=
  match gs with
  | [] => mret []
  | genre :: r => name ← read (get genre "name"); ns ← genre_names r; mret (name :: ns)
  end.

(** Lines 56-65. *)
Definition getRelevantMovieInfo (movieInfo : value) : M (list (string * value)) :=
  let relevantInfo := pick movieInfo ["title"; "imdb_id"; "poster_path"; "release_date"] in
  genres ← read (get movieInfo "genres");
  names ← genre_names (elements_of genres);
  mret (obj_set "genres" (VArr names) relevantInfo).

(** Lines 84-125: the loop over the items.  [movies] holds the [movie]
    object of each iteration; its [date] is kept as the text of [pubDate]. *)
Fixpoint main_loop (i : nat) (items : list item) : M unit :=
  match items with
  | [] => skip
  | rawMovie :: rest =>
      let tmdb_id := getMetaValue "tmdb_id" (postmeta rawMovie) in
      let movie := extend [("date", VStr (pubDate rawMovie));
                           ("content", VStr (content_encoded rawMovie));
                           ("tmdb_id", tmdb_id)]
                          (processWPCategories (category rawMovie)) in
      modify (fun s => set_movies (movies s ++ [VObj movie]) s);;
      match tmdb_id with
      | VBool false =>
          ((fun s =>
              log ("Missing tmdb_id: " +:+ toDateString (env s) (pubDate rawMovie) +:+ " "
                   +:+ ToString (default VUndefined (assoc "title" movie))) s) : M unit);;
          modify (fun s =>
            set_movies (<[i := VObj (obj_set "imdb_id"
                                       (getMetaValue "imdb_id" (postmeta rawMovie)) movie)]>
                          (movies s)) s)
      | _ =>
          p ← getMovieInfo (ToString tmdb_id);
          t ← then_ p (main_then i);
          _ ← catch_ t main_catch;
          skip
      end;;
      main_loop (S i) rest
  end.

Definition main (items : list item) : M unit := main_loop 0 items.

(** ** The function literals *)

Definition apply_handler (h : handler) (x : value) : M unit :=
  match h with
  | Promise_all_resolveElement a i => Promise_all_element a i x
  | Promise_all_reject q => reject q x
  | validateCacheFile_then p => resolve p x
  | validateCacheFile_catch p => reject p x
  | fetchMovieInfo_saved | fetchAPIConfiguration_saved =>
      filePath ← read (get x "filePath");
      log (ToString filePath +:+ " saved.")
  | fetchMovieInfo_saveFailed | fetchAPIConfiguration_saveFailed =>
      emit (console_error [x])
  | getMovieInfo_then tmdb_id p =>
      cached ← read (get_index x 1);
      title ← read (get cached "title");
      log ("Info for " +:+ tmdb_id +:+ " (" +:+ ToString title +:+ ") found in cache.");;
      resolve p cached
  | getMovieInfo_catch tmdb_id p => fetchMovieInfo tmdb_id p
  | getAPIConfiguration_then p =>
      log "Configuration data found in cache.";;
      cached ← read (get_index x 1);
      resolve p cached
  | getAPIConfiguration_catch p => fetchAPIConfiguration p
  | getTMDBImagesBaseUrl_then p =>
      images ← read (get x "images");
      base_url ← read (get images "base_url");
      modify (set_tmdbImagesBaseUrl base_url);;
      emit (assigns_tmdbImagesBaseUrl base_url);;
      ((fun s => resolve p (tmdbImagesBaseUrl s) s) : M unit)
  | getTMDBImagesBaseUrl_catch p =>
      ((fun s => reject p (tmdbImagesBaseUrl s) s) : M unit)
  | fetchAndSaveMoviePoster_then posterFileName size destPath p =>
      emit (console_log [VStr "getTMDBImagesBaseUrl:tmdbImagesBaseUrl => "; x]);;
      let url := (ToString x +:+ size) +:+ posterFileName in
      start (request url) (request_listeners destPath p)
  | fetchAndSaveMoviePoster_catch p => reject p x
  | getMoviePoster_then posterFileName destPath p =>
      log ("Poster " +:+ posterFileName +:+ " found in cache.");;
      resolve p (VStr destPath)
  | getMoviePoster_catch posterFileName size p =>
      f ← fetchAndSaveMoviePoster posterFileName size;
      t ← then_ f (getMoviePoster_fetched p);
      _ ← catch_ t (getMoviePoster_fetchFailed p);
      skip
  | getMoviePoster_fetched p => resolve p x
  | getMoviePoster_fetchFailed p => reject p x
  | main_then i =>
      relevantInfo ← getRelevantMovieInfo x;
      ((fun s =>
          match movies s !! i with
          | Some (VObj movie) =>
              let movie' := extend movie relevantInfo in
              (_ ← getMoviePoster
                     (ToString (default VUndefined (assoc "poster_path" movie'))) None;
               skip) (set_movies (<[i := VObj movie']> (movies s)) s)
          | _ => (Normal tt, s)
          end) : M unit)
  | main_catch => emit (console_log [VStr "getMovieInfo:err => "; x])
  end.

Definition SyntaxError : value := VError "SyntaxError" "Unexpected token in JSON".

Definition invoke (cb : callback) (r : io_result) : M unit :=
  match cb, r with
  | validateCacheFileDate_cb p, io_error err => reject p err
  | validateCacheFileDate_cb p, io_stats mtime =>
      valid ← isValidCacheFileDate mtime None;
      if negb valid then reject p VNull
      else resolve p (VObj [("isValidCacheFileDate", VBool true)])
  | validateCacheFileContents_cb p, io_error err => reject p err
  | validateCacheFileContents_cb p, io_contents fileContents =>
      match JSON_parse fileContents with
      | None => reject p SyntaxError
      | Some parsedContents => resolve p parsedContents
      end
  | saveMovieInfo_cb filePath p, io_error err => reject p err
  | saveMovieInfo_cb filePath p, io_done =>
      resolve p (VObj [("saveMovieInfo", VBool true); ("filePath", VStr filePath)])
  | fetchMovieInfo_cb tmdb_id p, io_reply err data =>
      (if negb (isNull err) then reject p err else skip);;
      title ← read (get data "title");
      log ("Info for " +:+ tmdb_id +:+ " (" +:+ ToString title +:+ ") fetched.");;
      s ← saveMovieInfo tmdb_id data;
      t ← then_ s fetchMovieInfo_saved;
      _ ← catch_ t fetchMovieInfo_saveFailed;
      resolve p data
  | saveAPIConfiguration_cb p, io_error err => reject p err
  | saveAPIConfiguration_cb p, io_done =>
      resolve p (VObj [("saveAPIConfiguration", VBool true);
                       ("filePath", VStr configCacheFilePath)])
  | fetchAPIConfiguration_cb p, io_reply err data =>
      (if negb (isNull err) then reject p err else skip);;
      log "API configuration fetched.";;
      s ← saveAPIConfiguration data;
      t ← then_ s fetchAPIConfiguration_saved;
      _ ← catch_ t fetchAPIConfiguration_saveFailed;
      resolve p data
  | request_listeners destPath p, io_error err =>
      emit (console_log [VStr "request:error => "; err]);;
      reject p err
  | request_listeners destPath p, io_response statusCode body =>
      if negb (statusCode =? 200)%Z then reject p (VObj [("statusCode", VNum statusCode)])
      else start (pipe destPath body) (pipe_close destPath p)
  | pipe_close destPath p, io_done => resolve p (VStr destPath)
  | pipe_close destPath p, io_error err => throw err
  | _, _ => skip
  end.

(** ** The event loop *)

Definition ENOENT (path : string) : value :=
  VError "Error" ("ENOENT: no such file or directory, open '" +:+ path +:+ "'").
Definition EACCES (path : string) : value :=
  VError "Error" ("EACCES: permission denied, open '" +:+ path +:+ "'").

(** The file system: a map from paths to files. *)
Definition lookup_file (fs : gmap string file) (path : string) : option file :=
  fs !! path.
Definition put_file (path : string) (f : file) (fs : gmap string file) : gmap string file :=
  <[path := f]> fs.

(** A write creates or replaces the file; its modification time is the
    time of the write. *)
Definition write_file (path data : string) (s : state) : io_result * state :=
  let w := env s in
  if unwritable w path then (io_error (EACCES path), s)
  else (io_done, set_env (set_files (put_file path (File data (clock w)) (files w)) w) s).

(** What an operation does to the world when it completes, and what it
    hands to its callback. *)
Definition perform (op : io_op) (s : state) : io_result * state :=
  let w := env s in
  match op with
  | fs_stat path =>
      (match lookup_file (files w) path with
       | Some f => io_stats (mtime f)
       | None => io_error (ENOENT path)
       end, s)
  | fs_readFile path =>
      (match lookup_file (files w) path with
       | Some f => io_contents (contents f)
       | None => io_error (ENOENT path)
       end, s)
  | fs_writeFile path data => write_file path data s
  | pipe destPath body => write_file destPath body s
  | MovieDB_movieInfo id =>
      (io_reply (fst (movieInfo_response w id)) (snd (movieInfo_response w id)), s)
  | MovieDB_configuration =>
      (io_reply (fst (configuration_response w)) (snd (configuration_response w)), s)
  | request url =>
      (match request_response w url with
       | HttpError err => io_error err
       | HttpResponse statusCode body => io_response statusCode body
       end, s)
  end.

(** A callback that throws is not inside any promise: the exception is
    uncaught and ends the process. *)
Definition complete (t : task) (s : state) : state :=
  let '(r, s1) := perform (task_op t) s in
  let s2 := set_trace (finished (task_op t) r :: trace s1) s1 in
  match invoke (task_cb t) r s2 with
  | (Normal _, s3) => s3
  | (Throw e, s3) => set_crashed (Some e) s3
  end.

(** A reaction job: the handler's return value ([undefined] for every
    handler here) fulfils the derived promise, what it throws rejects it;
    without a handler the outcome passes through. *)
Definition run_handler (h : handler) (x : value) (d : pid) (s : state) : state :=
  match apply_handler h x s with
  | (Normal _, s') => snd (resolve d VUndefined s')
  | (Throw e, s') => snd (reject d e s')
  end.

Definition run_job (j : job) (s : state) : state :=
  let r := job_reaction j in
  match job_outcome j with
  | Fulfilled v =>
      match onFulfilled r with
      | Some h => run_handler h v (derived r) s
      | None => snd (resolve (derived r) v s)
      end
  | Rejected e =>
      match onRejected r with
      | Some h => run_handler h e (derived r) s
      | None => snd (reject (derived r) e s)
      end
  end.

(** The [k]-th pending operation completes, [dt] milliseconds later. *)
Definition step_at (dt : N) (k : nat) (s : state) : state :=
  match pending s !! k with
  | Some t =>
      complete t
        (set_pending (delete k (pending s))
           (set_env (set_clock (clock (env s) + Z.of_N dt)%Z (env s)) s))
  | None => s
  end.

(** One turn: the oldest promise job if there is one; otherwise the
    completion of the pending operation that [i] chooses. *)
Definition step (dt : N) (i : nat) (s : state) : state :=
  match crashed s with
  | Some _ => s
  | None =>
      match microtasks s with
      | j :: js => run_job j (set_microtasks js s)
      | [] => step_at dt (i mod length (pending s))%nat s
      end
  end.

Fixpoint run (sched : list (N * nat)) (s : state) : state :=
  match sched with
  | [] => s
  | (dt, i) :: sched' => run sched' (step dt i s)
  end.

(** Nothing left to do. *)
Definition idle (s : state) : bool :=
  match microtasks s, pending s with
  | [], [] => true
  | _, _ => false
  end.

(** The same process, [d] milliseconds later. *)
Definition later (d : N) (s : state) : state :=
  set_env (set_clock (clock (env s) + Z.of_N d)%Z (env s)) s.

(** The events in the order they happened. *)
Definition history (s : state) : list event := rev (trace s).

(** The time a schedule takes at most. *)
Definition total_wait (sched : list (N * nat)) : Z :=
  Z.of_N (foldr (fun x acc => (fst x + acc)%N) 0%N sched).

Definition promise_state (s : state) (p : pid) : option promise := promises s !! p.

Definition is_network (e : event) : bool :=
  match e with
  | started (MovieDB_movieInfo _) | started MovieDB_configuration
  | started (request _) => true
  | _ => false
  end.

Definition is_reply_for (id : string) (e : event) : bool :=
  match e with
  | finished (MovieDB_movieInfo i) _ => String.eqb i id
  | _ => false
  end.

Definition is_console (e : event) : bool :=
  match e with
  | console_log _ | console_error _ => true
  | _ => false
  end.

Definition is_io (e : event) : bool :=
  match e with
  | started _ => true
  | _ => false
  end.

(** ** Measures used in the proofs *)

(** What may follow a value inside a text that [ser] wrote. *)
Definition value_end (s : string) : bool :=
  match s with
  | "" => true
  | String c _ => is_char c "," || is_char c "]" || is_char c "}"
  end.

(** Recursion depth [parse_value] needs to read back [ser v]. *)
Fixpoint need (v : value) : nat :=
  match v with
  | VArr l => S (list_sum (map (fun x => S (need x)) l))
  | VObj l => S (list_sum (map (fun kv => S (need (snd kv))) l))
  | _ => 1
  end.

(** A member of an object, as [ser] writes it. *)
Definition ser_member (kv : string * value) : string :=
  quote (fst kv) +:+ ":" +:+ ser (snd kv).

(** [parse_value] reads [ser v] back, whatever follows it. *)
Definition parse_ok (v : value) : Prop :=
  forall fuel rest, (need v <= fuel)%nat -> value_end rest = true ->
    parse_value fuel (ser v +:+ rest) = Some (v, rest).

(** ** Shapes of names used in the statements *)

Fixpoint slash_free (s : string) : bool :=
  match s with
  | "" => true
  | String c r => negb (is_char c "/") && slash_free r
  end.

Definition starts_with_slash (s : string) : bool :=
  match s with
  | String c _ => is_char c "/"
  | "" => false
  end.

(** What [validateCacheFileDate] resolves with. *)
Definition fresh_mark : value := VObj [("isValidCacheFileDate", VBool true)].

(** ** A batch of two posts *)

Definition two_posts : list item :=
  [Item "Mon, 01 Jan 2018 10:00:00 +0000" "<p>first</p>" ["home"] [("tmdb_id", "1")];
   Item "Tue, 02 Jan 2018 10:00:00 +0000" "<p>second</p>" ["theater"] [("tmdb_id", "603")]].

Definition matrix : value :=
  VObj [("title", VStr "The Matrix"); ("genres", VArr [VObj [("name", VStr "Action")]]);
        ("poster_path", VStr "/poster.jpg"); ("release_date", VStr "1999-03-30");
        ("imdb_id", VStr "tt0133093")].

(** The service has no movie ["1"]; [data] comes with the error. *)
Definition service_without_1 (data : value) : world :=
  World ∅ 5000 (fun _ => false)
        (fun id => if String.eqb id "1" then (VError "Error" "Not Found", data)
                   else (VNull, matrix))
        (VNull, VObj [("images", VObj [("base_url", VStr "http://image.tmdb.org/t/p/")])])
        (fun _ => HttpResponse 200 "JPEG") (fun d => d).


(** ** The category classes of [processWPCategories] (lines 36-50) *)

Definition is_location (c : string) : bool :=
  String.eqb c "home" || String.eqb c "theater" || String.eqb c "plane".

Definition is_frequency (c : string) : bool :=
  String.eqb c "first-view" || String.eqb c "functional-first-time"
  || String.eqb c "repeat" || String.eqb c "regular".

Definition is_feature (c : string) : bool := negb (is_location c || is_frequency c).

(** The names [getRelevantMovieInfo] picks (line 57). *)
Definition picked : list string := ["title"; "imdb_id"; "poster_path"; "release_date"].

(** [genre.name] for a genre it can be read from. *)
Definition name_of (genre : value) : value :=
  match get genre "name" with
  | inl n => n
  | inr _ => VUndefined
  end.

Definition defined (v : value) : bool := negb (isNull v || isUndefined v).

(** The [movie] object the loop builds before it looks at [tmdb_id]
    (lines 91-99). *)
Definition movie_of (rawMovie : item) : list (string * value) :=
  extend [("date", VStr (pubDate rawMovie));
          ("content", VStr (content_encoded rawMovie));
          ("tmdb_id", getMetaValue "tmdb_id" (postmeta rawMovie))]
         (processWPCategories (category rawMovie)).

(** ** What a call starts before it returns *)

(** The call [m] returns normally after starting the operations [ops], in
    that order, whatever the state of the process; apart from that and from
    the promises it creates, it changes nothing. *)
Definition starts {A : Type} (m : M A) (ops : list io_op) : Prop :=
  forall s, exists a s',
    m s = (Normal a, s') /\
    trace s' = rev (map started ops) ++ trace s /\
    map task_op (pending s') = map task_op (pending s) ++ ops /\
    env s' = env s /\ movies s' = movies s /\ crashed s' = crashed s /\
    tmdbImagesBaseUrl s' = tmdbImagesBaseUrl s.

(** The cache lookups the loop starts for a post, and what the loop adds to
    the history for it (lines 102-124). *)
Definition lookups (rawMovie : item) : list io_op :=
  match getMetaValue "tmdb_id" (postmeta rawMovie) with
  | VBool false => []
  | tmdb_id =>
      [fs_stat (getInfoCacheFilePathFromId (ToString tmdb_id));
       fs_readFile (getInfoCacheFilePathFromId (ToString tmdb_id))]
  end.

Definition first_events (w : world) (rawMovie : item) : list event :=
  match getMetaValue "tmdb_id" (postmeta rawMovie) with
  | VBool false =>
      [console_log [VStr ("Missing tmdb_id: " +:+ toDateString w (pubDate rawMovie)
                          +:+ " undefined")]]
  | _ => map started (lookups rawMovie)
  end.

(** ** Texts that are certainly not JSON *)

(** The text is empty, or its first character after the white space begins
    no JSON value. *)
Definition not_json_start (s : string) : bool :=
  match skip_ws s with
  | "" => true
  | String c _ =>
      negb (is_char c "n" || is_char c "t" || is_char c "f" || is_char c dquote
            || is_char c "[" || is_char c "{" || is_char c "-"
            || match digit_of c with Some _ => true | None => false end)
  end.

(** * Properties *)

(** ** Strings *)

Section strings.
Local Arguments String.append !_ _ / : simpl nomatch.

Lemma append_assoc (a b c : string) : (a +:+ b) +:+ c = a +:+ (b +:+ c).
Proof. induction a as [|x a IH]; simpl; [reflexivity | now rewrite IH]. Qed.

Lemma append_nil_r (a : string) : a +:+ "" = a.
Proof. induction a as [|x a IH]; simpl; [reflexivity | now rewrite IH]. Qed.

Lemma append_length (a b : string) :
  String.length (a +:+ b) = (String.length a + String.length b)%nat.
Proof. induction a as [|x a IH]; simpl; [reflexivity | now rewrite IH]. Qed.

Lemma append_inv_head (a b c : string) : a +:+ b = a +:+ c -> b = c.
Proof. induction a as [|x a IH]; simpl; intros H; [exact H | injection H as H; auto]. Qed.

Lemma split_at_slash (s1 s2 r1 r2 : string) :
  slash_free s1 = true -> slash_free s2 = true ->
  s1 +:+ String "/" r1 = s2 +:+ String "/" r2 -> s1 = s2 /\ r1 = r2.
Proof.
  revert s2. induction s1 as [|c s1 IH]; intros [|d s2] H1 H2 H; simpl in *.
  - injection H as ->. split; reflexivity.
  - injection H as <- _. discriminate H2.
  - injection H as -> _. discriminate H1.
  - injection H as -> H.
    apply andb_true_iff in H1 as [_ H1]. apply andb_true_iff in H2 as [_ H2].
    destruct (IH s2 H1 H2 H) as [-> ->]. split; reflexivity.
Qed.

Lemma starts_with_slash_inv (p : string) :
  starts_with_slash p = true -> exists r, p = String "/" r.
Proof.
  destruct p as [|c r]; [discriminate|]. simpl. unfold is_char.
  intros H. apply Ascii.eqb_eq in H as ->. exists r. reflexivity.
Qed.

(** The two cache directories have no path in common. *)
Lemma poster_path_not_info_path (posterFileName size tmdb_id : string) :
  getMoviePosterCachePath posterFileName size <> getInfoCacheFilePathFromId tmdb_id.
Proof.
  unfold getMoviePosterCachePath, getInfoCacheFilePathFromId,
    postersCachePath, infoCachePath.
  rewrite !append_assoc. simpl. discriminate.
Qed.

(** Two poster paths are equal exactly when size and name, put together,
    spell the same string. *)
Lemma poster_path_eq_iff (p1 s1 p2 s2 : string) :
  getMoviePosterCachePath p1 s1 = getMoviePosterCachePath p2 s2 <->
  s1 +:+ p1 = s2 +:+ p2.
Proof.
  unfold getMoviePosterCachePath. rewrite !append_assoc. split.
  - apply append_inv_head.
  - intros ->. reflexivity.
Qed.

End strings.

(** ** JSON: what [JSON_stringify] writes, [JSON_parse] reads back *)

Section json_round_trip.
Local Arguments String.append !_ _ / : simpl nomatch.

Lemma parse_chars_escape_char (c : ascii) (t : string) :
  parse_chars (escape_char c +:+ t) =
  '(u, r) ← parse_chars t; Some (String c u, r).
Proof. destruct c as [[] [] [] [] [] [] [] []]; reflexivity. Qed.

Lemma parse_chars_escape (s rest : string) :
  parse_chars (escape s +:+ String dquote rest) = Some (s, rest).
Proof.
  induction s as [|c s IH]; [reflexivity|].
  change (escape (String c s)) with (escape_char c +:+ escape s).
  rewrite append_assoc, parse_chars_escape_char, IH. reflexivity.
Qed.

Lemma parse_chars_quote (s rest : string) :
  parse_chars (escape s +:+ String dquote "" +:+ rest) = Some (s, rest).
Proof. apply parse_chars_escape. Qed.

Lemma parse_digits_uint (u : Decimal.uint) (rest : string) :
  value_end rest = true ->
  parse_digits (NilEmpty.string_of_uint u +:+ rest) = (u, rest).
Proof.
  intros Hrest.
  induction u; simpl; try (change (digit_of _) with (@None (Decimal.uint -> Decimal.uint)));
    try (rewrite IHu; reflexivity).
  destruct rest as [|c r]; [reflexivity|].
  simpl in Hrest. unfold parse_digits; fold parse_digits.
  destruct c as [[] [] [] [] [] [] [] []]; try discriminate Hrest; reflexivity.
Qed.

Lemma to_uint_head (p : positive) :
  exists c t, NilEmpty.string_of_uint (Pos.to_uint p) = String c t /\
              is_char c "0" = false /\ is_char c "-" = false /\ is_ws c = false /\
              is_char c "]" = false /\ is_char c "}" = false /\
              digit_of c <> None.
Proof.
  pose proof (DecimalPos.Unsigned.to_uint_nonnil p) as Hnil.
  assert (Hnz : forall d, Pos.to_uint p <> Decimal.D0 d).
  { intros d Hd.
    assert (Hn : Decimal.unorm (Pos.to_uint p) = Pos.to_uint p).
    { rewrite <- (DecimalPos.Unsigned.to_of (Pos.to_uint p)).
      rewrite DecimalPos.Unsigned.of_to. reflexivity. }
    rewrite Hd in Hn. rewrite DecimalFacts.unorm_D0 in Hn.
    unfold Decimal.unorm in Hn.
    destruct (Decimal.nzhead d) eqn:E; try discriminate Hn.
    - injection Hn as <-. apply (DecimalPos.Unsigned.to_uint_nonzero p). exact Hd.
    - exact (DecimalFacts.nzhead_nonzero _ _ (eq_trans E Hn)). }
  destruct (Pos.to_uint p) eqn:E; try congruence;
    try (eexists _, _; repeat split; try reflexivity; discriminate).
Qed.

Lemma value_end_not_frac (rest : string) :
  value_end rest = true -> starts_frac_or_exp rest = false.
Proof.
  destruct rest as [|c r]; [reflexivity|]. simpl.
  destruct c as [[] [] [] [] [] [] [] []]; intros H; try discriminate H; reflexivity.
Qed.

Lemma parse_number_Z (n : Z) (rest : string) :
  value_end rest = true ->
  parse_number (Z_to_string n +:+ rest) = Some (VNum n, rest).
Proof.
  intros Hrest. pose proof (value_end_not_frac _ Hrest) as Hfrac.
  assert (Hpos : forall p, parse_int (NilEmpty.string_of_uint (Pos.to_uint p) +:+ rest)
                           = Some (Z.pos p, rest)).
  { intros p. destruct (to_uint_head p) as (c & t & E & H0 & _).
    pose proof (parse_digits_uint (Pos.to_uint p) rest Hrest) as Hd.
    rewrite E in *. change (String c t +:+ rest) with (String c (t +:+ rest)) in *.
    unfold parse_int. rewrite H0, Hd.
    assert (Hz : Z.of_uint (Pos.to_uint p) = Z.pos p).
    { unfold Z.of_uint. rewrite DecimalPos.Unsigned.of_to. reflexivity. }
    pose proof (DecimalPos.Unsigned.to_uint_nonnil p) as Hnil.
    destruct (Pos.to_uint p); try congruence; rewrite Hz; reflexivity. }
  assert (Hstr : forall p, NilZero.string_of_uint (Pos.to_uint p)
                           = NilEmpty.string_of_uint (Pos.to_uint p)).
  { intros p. pose proof (DecimalPos.Unsigned.to_uint_nonnil p).
    unfold NilZero.string_of_uint. destruct (Pos.to_uint p); congruence. }
  destruct n as [|p|p]; unfold Z_to_string.
  - change (NilZero.string_of_int (Z.to_int 0) +:+ rest) with (String "0" rest).
    unfold parse_number. change (parse_int (String "0" rest)) with (Some (0, rest)).
    simpl. rewrite Hfrac. reflexivity.
  - change (NilZero.string_of_int (Z.to_int (Z.pos p)))
      with (NilZero.string_of_uint (Pos.to_uint p)).
    rewrite Hstr. specialize (Hpos p).
    destruct (to_uint_head p) as (c & t & E & _ & Hm & _).
    rewrite E in *. change (String c t +:+ rest) with (String c (t +:+ rest)) in *.
    unfold parse_number. rewrite Hm, Hpos. simpl. rewrite Hfrac. reflexivity.
  - change (NilZero.string_of_int (Z.to_int (Z.neg p)))
      with (String "-" (NilZero.string_of_uint (Pos.to_uint p))).
    rewrite Hstr.
    change (String "-" ?a +:+ rest) with (String "-" (a +:+ rest)).
    unfold parse_number.
    change (is_char "-" "-") with true. cbv iota. rewrite Hpos. simpl.
    rewrite Hfrac. reflexivity.
Qed.

Lemma skip_ws_head (c : ascii) (r : string) :
  is_ws c = false -> skip_ws (String c r) = String c r.
Proof. intros H. simpl. rewrite H. reflexivity. Qed.

Lemma Z_to_string_head (n : Z) :
  exists c t, Z_to_string n = String c t /\
              (is_char c "-" = true \/ digit_of c <> None).
Proof.
  destruct n as [|p|p]; unfold Z_to_string.
  - exists "0"%char, "". split; [reflexivity | right; discriminate].
  - destruct (to_uint_head p) as (c & t & E & H).
    exists c, t. split; [| right; tauto].
    change (NilZero.string_of_int (Z.to_int (Z.pos p)))
      with (NilZero.string_of_uint (Pos.to_uint p)).
    unfold NilZero.string_of_uint.
    pose proof (DecimalPos.Unsigned.to_uint_nonnil p).
    destruct (Pos.to_uint p); congruence.
  - eexists "-"%char, _. split; [reflexivity | left; reflexivity].
Qed.

Lemma number_head_plain (c : ascii) :
  is_char c "-" = true \/ digit_of c <> None ->
  is_ws c = false /\ is_char c "]" = false /\ is_char c "}" = false /\
  is_char c "n" = false /\ is_char c "t" = false /\ is_char c "f" = false /\
  is_char c dquote = false /\ is_char c "[" = false /\ is_char c "{" = false.
Proof.
  destruct c as [[] [] [] [] [] [] [] []]; intros [H|H];
    try discriminate H; try (exfalso; apply H; reflexivity);
    repeat split; reflexivity.
Qed.

Lemma ser_head (v : value) :
  exists c t, ser v = String c t /\ is_ws c = false /\
              is_char c "]" = false /\ is_char c "}" = false.
Proof.
  destruct v as [| |[]|n|s|l|l|? ?];
    try (eexists _, _; repeat split; reflexivity).
  destruct (Z_to_string_head n) as (c & t & E & H).
  apply number_head_plain in H. exists c, t. simpl. tauto.
Qed.

Lemma parse_value_number (f : nat) (c : ascii) (r : string) :
  is_char c "-" = true \/ digit_of c <> None ->
  parse_value (S f) (String c r) = parse_number (String c r).
Proof.
  intros H. apply number_head_plain in H.
  destruct H as (H1 & _ & _ & H2 & H3 & H4 & H5 & H6 & H7).
  unfold parse_value; fold parse_value parse_elements parse_members.
  rewrite (skip_ws_head _ _ H1), H2, H3, H4, H5, H6, H7. reflexivity.
Qed.

Lemma parse_elements_S (f : nat) (s : string) :
  parse_elements (S f) s =
  '(v, r) ← parse_value f s;
  match skip_ws r with
  | "" => None
  | String c r' =>
      if is_char c "," then '(l, r'') ← parse_elements f r'; Some (v :: l, r'')
      else if is_char c "]" then Some ([v], r')
      else None
  end.
Proof. reflexivity. Qed.

Lemma parse_members_S (f : nat) (q : ascii) (r : string) :
  is_ws q = false ->
  parse_members (S f) (String q r) =
  if is_char q dquote then
    '(k, r1) ← parse_chars r;
    match skip_ws r1 with
    | "" => None
    | String c r2 =>
        if is_char c ":" then
          '(v, r3) ← parse_value f r2;
          match skip_ws r3 with
          | "" => None
          | String c' r4 =>
              if is_char c' "," then
                '(l, r5) ← parse_members f r4; Some ((k, v) :: l, r5)
              else if is_char c' "}" then Some ([(k, v)], r4)
              else None
          end
        else None
    end
  else None.
Proof.
  intros H. unfold parse_members; fold parse_members parse_value.
  rewrite (skip_ws_head _ _ H). reflexivity.
Qed.

Lemma join_cons2 (a b : string) (l : list string) :
  join "," (a :: b :: l) = a +:+ "," +:+ join "," (b :: l).
Proof. reflexivity. Qed.

Lemma parse_elements_ser (l : list value) :
  Forall parse_ok l ->
  forall x fuel rest, parse_ok x ->
    (S (need x) + list_sum (map (fun y => S (need y)) l) <= fuel)%nat ->
    parse_elements fuel (join "," (map ser (x :: l)) +:+ String "]" rest)
    = Some (x :: l, rest).
Proof.
  induction 1 as [|y l Hy Hl IH]; intros x fuel rest Hx Hf;
    (destruct fuel as [|f]; [simpl in Hf; lia|]); rewrite parse_elements_S.
  - change (join "," (map ser [x])) with (ser x).
    rewrite (Hx f (String "]" rest)) by (simpl in *; first [lia | reflexivity]).
    reflexivity.
  - change (map ser (x :: y :: l)) with (ser x :: ser y :: map ser l).
    rewrite join_cons2, !append_assoc.
    change ("," +:+ ?a) with (String "," a).
    rewrite (Hx f) by (simpl in *; first [lia | reflexivity]).
    specialize (IH y f rest Hy).
    change (map ser (y :: l)) with (ser y :: map ser l) in IH.
    set (tl := join "," (ser y :: map ser l) +:+ String "]" rest) in *.
    simpl. rewrite IH by (simpl in *; lia).
    reflexivity.
Qed.

Lemma ser_member_app (kv : string * value) (rest : string) :
  ser_member kv +:+ rest =
  String dquote (escape (fst kv) +:+ String dquote (String ":" (ser (snd kv) +:+ rest))).
Proof.
  unfold ser_member, quote. simpl. rewrite !append_assoc. reflexivity.
Qed.

Lemma parse_members_ser (l : list (string * value)) :
  Forall (fun kv => parse_ok (snd kv)) l ->
  forall kv fuel rest, parse_ok (snd kv) ->
    (S (need (snd kv)) + list_sum (map (fun y => S (need (snd y))) l) <= fuel)%nat ->
    parse_members fuel (join "," (map ser_member (kv :: l)) +:+ String "}" rest)
    = Some (kv :: l, rest).
Proof.
  induction 1 as [|y l Hy Hl IH]; intros [k x] fuel rest Hx Hf;
    simpl in Hx; (destruct fuel as [|f]; [simpl in Hf; lia|]).
  - change (join "," (map ser_member [(k, x)])) with (ser_member (k, x)).
    rewrite ser_member_app, parse_members_S by reflexivity.
    change (is_char dquote dquote) with true. cbv iota.
    rewrite parse_chars_escape. simpl.
    rewrite (Hx f (String "}" rest)) by (simpl in *; first [lia | reflexivity]).
    reflexivity.
  - change (map ser_member ((k, x) :: y :: l))
      with (ser_member (k, x) :: ser_member y :: map ser_member l).
    rewrite join_cons2, !append_assoc.
    change ("," +:+ ?a) with (String "," a).
    specialize (IH y f rest Hy).
    change (map ser_member (y :: l)) with (ser_member y :: map ser_member l) in IH.
    set (tl := join "," (ser_member y :: map ser_member l) +:+ String "}" rest) in *.
    rewrite ser_member_app, parse_members_S by reflexivity.
    change (is_char dquote dquote) with true. cbv iota.
    rewrite parse_chars_escape. simpl.
    rewrite (Hx f (String "," tl)) by (simpl in *; first [lia | reflexivity]).
    simpl. rewrite IH by (simpl in *; lia).
    reflexivity.
Qed.

Lemma obj_set_fresh (k : string) (x : value) (l : list (string * value)) :
  existsb (String.eqb k) (map fst l) = false -> obj_set k x l = (l ++ [(k, x)])%list.
Proof.
  induction l as [|[k' y] l IH]; simpl; [reflexivity|].
  intros H. apply orb_false_iff in H as [H1 H2].
  rewrite H1, IH by exact H2. reflexivity.
Qed.

Lemma from_members_nodup (l : list (string * value)) :
  nodupb (map fst l) = true -> from_members l = l.
Proof.
  unfold from_members.
  enough (H : forall acc,
             nodupb (map fst (acc ++ l)%list) = true ->
             foldl (fun o kv => obj_set (fst kv) (snd kv) o) acc l = (acc ++ l)%list)
    by (exact (H [])).
  induction l as [|[k x] l IH]; intros acc Hnd; simpl.
  - now rewrite app_nil_r.
  - rewrite obj_set_fresh.
    + rewrite IH; rewrite <- app_assoc; [reflexivity | exact Hnd].
    + clear IH. induction acc as [|[k' y] acc IHa]; [reflexivity|].
      simpl in *. apply andb_true_iff in Hnd as [Hn1 Hn2].
      rewrite IHa by exact Hn2. rewrite orb_false_r.
      apply negb_true_iff in Hn1.
      rewrite map_app, existsb_app in Hn1. simpl in Hn1.
      apply orb_false_iff in Hn1 as [_ Hn1]. apply orb_false_iff in Hn1 as [Hn1 _].
      rewrite String.eqb_sym. exact Hn1.
Qed.

Lemma ser_members_json (l : list (string * value)) :
  forallb (fun kv => is_json (snd kv)) l = true ->
  omap id (map (fun kv => if isUndefined (snd kv) then None
                          else Some (quote (fst kv) +:+ ":" +:+ ser (snd kv))) l)
  = map ser_member l.
Proof.
  induction l as [|[k x] l IH]; [reflexivity|].
  simpl. intros H. apply andb_true_iff in H as [H1 H2].
  specialize (IH H2).
  destruct x; try discriminate H1; simpl; f_equal; exact IH.
Qed.

Lemma join_head (c : ascii) (t : string) (l : list string) (rest : string) :
  exists t', join "," (String c t :: l) +:+ rest = String c t'.
Proof. destruct l; eexists; reflexivity. Qed.

(** Reading back what was written, inside any text. *)
Lemma parse_ser (v : value) : is_json v = true -> parse_ok v.
Proof.
  induction v as [| |b|n|s|l IH|l IH|? ?] using value_ind; intros Hj;
    try discriminate Hj; intros fuel rest Hf Hrest;
    (destruct fuel as [|f]; [simpl in Hf; lia|]).
  - reflexivity.
  - destruct b; reflexivity.
  - destruct (Z_to_string_head n) as (c & t & E & H).
    change (ser (VNum n)) with (Z_to_string n).
    pose proof (parse_number_Z n rest Hrest) as Hn.
    rewrite E in *. change (String c t +:+ rest) with (String c (t +:+ rest)) in *.
    rewrite parse_value_number by exact H. exact Hn.
  - change (ser (VStr s) +:+ rest)
      with (String dquote ((escape s +:+ String dquote "") +:+ rest)).
    rewrite append_assoc.
    change (String dquote "" +:+ rest) with (String dquote rest).
    unfold parse_value; fold parse_value parse_elements parse_members.
    rewrite skip_ws_head by reflexivity.
    change (is_char dquote "n") with false. change (is_char dquote "t") with false.
    change (is_char dquote "f") with false. change (is_char dquote dquote) with true.
    cbv iota. rewrite parse_chars_escape. reflexivity.
  - simpl in Hj.
    assert (Hok : Forall parse_ok l).
    { clear Hf. induction IH as [|x l Hx _ IHl]; [constructor|].
      simpl in Hj. apply andb_true_iff in Hj as [H1 H2]. constructor; auto. }
    destruct l as [|x l]; [reflexivity|].
    apply Forall_cons in Hok as [Hx Hl].
    change (ser (VArr (x :: l)) +:+ rest)
      with (String "[" ((join "," (map ser (x :: l)) +:+ "]") +:+ rest)).
    rewrite append_assoc. change ("]" +:+ rest) with (String "]" rest).
    pose proof (parse_elements_ser l Hl x f rest Hx) as He.
    destruct (ser_head x) as (c & t & E & Hw & Hb & _).
    change (map ser (x :: l)) with (ser x :: map ser l) in *. rewrite E in *.
    destruct (join_head c t (map ser l) (String "]" rest)) as [t' Et].
    rewrite Et in *.
    unfold parse_value; fold parse_value parse_elements parse_members.
    change (skip_ws (String "[" ?a)) with (String "["%char a).
    change (is_char "[" "n") with false. change (is_char "[" "t") with false.
    change (is_char "[" "f") with false. change (is_char "[" dquote) with false.
    change (is_char "[" "[") with true. cbv iota.
    rewrite (skip_ws_head _ _ Hw), Hb, He by (simpl in Hf; lia).
    reflexivity.
  - simpl in Hj. apply andb_true_iff in Hj as [Hj Hnd].
    assert (Hok : Forall (fun kv => parse_ok (snd kv)) l).
    { clear Hf Hnd. induction IH as [|x l Hx _ IHl]; [constructor|].
      simpl in Hj. apply andb_true_iff in Hj as [H1 H2]. constructor; auto. }
    change (ser (VObj l)) with
      ("{" +:+ join ","
         (omap id (map (fun kv => if isUndefined (snd kv) then None
                                  else Some (quote (fst kv) +:+ ":" +:+ ser (snd kv))) l))
       +:+ "}").
    rewrite (ser_members_json l Hj).
    destruct l as [|x l]; [reflexivity|].
    apply Forall_cons in Hok as [Hx Hl].
    change (("{" +:+ join "," (map ser_member (x :: l)) +:+ "}") +:+ rest)
      with (String "{" ((join "," (map ser_member (x :: l)) +:+ "}") +:+ rest)).
    rewrite append_assoc. change ("}" +:+ rest) with (String "}" rest).
    pose proof (parse_members_ser l Hl x f rest Hx) as He.
    change (map ser_member (x :: l)) with (ser_member x :: map ser_member l) in *.
    assert (Em : exists t, ser_member x = String dquote t) by (eexists; reflexivity).
    destruct Em as [t Em]. rewrite Em in *.
    destruct (join_head dquote t (map ser_member l) (String "}" rest)) as [t' Et].
    rewrite Et in *.
    unfold parse_value; fold parse_value parse_elements parse_members.
    change (skip_ws (String "{" ?a)) with (String "{"%char a).
    change (is_char "{" "n") with false. change (is_char "{" "t") with false.
    change (is_char "{" "f") with false. change (is_char "{" dquote) with false.
    change (is_char "{" "[") with false. change (is_char "{" "{") with true.
    cbv iota.
    rewrite skip_ws_head by reflexivity.
    change (is_char dquote "}") with false. cbv iota.
    rewrite He by (simpl in Hf; lia).
    simpl. rewrite from_members_nodup by exact Hnd. reflexivity.
Qed.

Lemma sum_need_bound {A : Type} (f : A -> nat) (g : A -> string) (l : list A) :
  Forall (fun x => (f x <= 2 * String.length (g x))%nat) l ->
  (list_sum (map (fun x => S (f x)) l) <= 2 * String.length (join "," (map g l)) + 1)%nat.
Proof.
  induction 1 as [|x l Hx Hl IH]; [simpl; lia|].
  destruct l as [|y l].
  - change (join "," (map g [x])) with (g x). simpl. lia.
  - change (map g (x :: y :: l)) with (g x :: g y :: map g l).
    rewrite join_cons2, !append_length.
    change (map g (y :: l)) with (g y :: map g l) in IH.
    change (list_sum (map (fun x => S (f x)) (x :: y :: l)))
      with (S (f x) + list_sum (map (fun x => S (f x)) (y :: l)))%nat.
    change (String.length ",") with 1%nat. lia.
Qed.

Lemma need_bound (v : value) :
  is_json v = true -> (need v <= 2 * String.length (ser v))%nat.
Proof.
  induction v as [| |b|n|s|l IH|l IH|? ?] using value_ind; intros Hj;
    try discriminate Hj.
  - simpl. lia.
  - destruct b; simpl; lia.
  - destruct (ser_head (VNum n)) as (c & t & E & _). rewrite E. simpl. lia.
  - simpl. lia.
  - simpl in Hj.
    assert (Hok : Forall (fun x => (need x <= 2 * String.length (ser x))%nat) l).
    { induction IH as [|x l Hx _ IHl]; [constructor|].
      simpl in Hj. apply andb_true_iff in Hj as [H1 H2]. constructor; auto. }
    pose proof (sum_need_bound need ser l Hok) as Hs.
    change (need (VArr l)) with (S (list_sum (map (fun x => S (need x)) l))).
    change (ser (VArr l)) with ("[" +:+ join "," (map ser l) +:+ "]").
    rewrite !append_length.
    change (String.length "[") with 1%nat. change (String.length "]") with 1%nat. lia.
  - simpl in Hj. apply andb_true_iff in Hj as [Hj _].
    assert (Hok : Forall (fun kv => (need (snd kv)
                                     <= 2 * String.length (ser_member kv))%nat) l).
    { induction IH as [|x l Hx _ IHl]; [constructor|].
      simpl in Hj. apply andb_true_iff in Hj as [H1 H2]. constructor; auto.
      specialize (Hx H1). unfold ser_member. rewrite !append_length. lia. }
    pose proof (sum_need_bound (fun kv => need (snd kv)) ser_member l Hok) as Hs.
    change (need (VObj l)) with (S (list_sum (map (fun kv => S (need (snd kv))) l))).
    change (ser (VObj l)) with
      ("{" +:+ join ","
         (omap id (map (fun kv => if isUndefined (snd kv) then None
                                  else Some (quote (fst kv) +:+ ":" +:+ ser (snd kv))) l))
       +:+ "}").
    rewrite (ser_members_json l Hj), !append_length.
    change (String.length "{") with 1%nat. change (String.length "}") with 1%nat. lia.
Qed.

(** [JSON.parse(JSON.stringify(v))] is [v], for a value of JSON. *)
Lemma JSON_parse_ser (v : value) : is_json v = true -> JSON_parse (ser v) = Some v.
Proof.
  intros Hj. unfold JSON_parse.
  pose proof (parse_ser v Hj (2 * String.length (ser v))%nat "" (need_bound v Hj) eq_refl) as H.
  rewrite append_nil_r in H. rewrite H. reflexivity.
Qed.

Lemma JSON_stringify_json (v : value) :
  is_json v = true -> JSON_stringify v = Some (ser v).
Proof. destruct v; try discriminate; reflexivity. Qed.

End json_round_trip.

(** ** Running the event loop *)

Ltac machine_with extra :=
  cbv beta iota zeta delta
    [step complete perform write_file invoke run_job run_handler apply_handler
     settle resolve reject subscribe then_ catch_ new_Promise alloc_promise enqueue
     start emit modify skip throw read log Date_now
     Promise_all Promise_all_subscribe Promise_all_element
     M_bind M_ret mbind mret
     set_env set_tmdbImagesBaseUrl set_movies set_promises set_alls set_microtasks
     set_pending set_trace set_crashed set_files set_clock
     env tmdbImagesBaseUrl movies promises alls microtasks pending trace crashed
     files clock unwritable movieInfo_response configuration_response
     request_response toDateString
     task_op task_cb onFulfilled onRejected derived job_reaction job_outcome
     all_values all_remaining all_target
     isValidCacheFileDate validateCacheFileDate validateCacheFileContents
     validateCacheFile saveMovieInfo fetchMovieInfo getMovieInfo saveAPIConfiguration
     fetchAPIConfiguration getAPIConfiguration getTMDBImagesBaseUrl
     fetchAndSaveMoviePoster getMoviePoster main main_loop
     app length map lookup list_lookup insert list_insert delete list_delete
     replicate fst snd pred negb default from_option id
     boot later get_index mtime contents extra].

Ltac machine := machine_with boot.
Ltac machine_at := machine_with step_at.

Lemma run_cons (dt : N) (i : nat) (sched : list (N * nat)) (s : state) :
  run ((dt, i) :: sched) s = run sched (step dt i s).
Proof. reflexivity. Qed.

Lemma run_idle (sched : list (N * nat)) (s : state) :
  idle s = true -> run sched s = s.
Proof.
  intros H. induction sched as [|[dt i] sched IH]; [reflexivity|].
  rewrite run_cons.
  assert (Hs : step dt i s = s); [| rewrite Hs; exact IH].
  unfold idle in H. unfold step, step_at.
  destruct (crashed s); [reflexivity|].
  destruct (microtasks s); [| discriminate H].
  destruct (pending s); [| discriminate H].
  reflexivity.
Qed.

Lemma run_crashed (sched : list (N * nat)) (s : state) (e : value) :
  crashed s = Some e -> run sched s = s.
Proof.
  intros H. induction sched as [|[dt i] sched IH]; [reflexivity|].
  rewrite run_cons. unfold step. rewrite H. exact IH.
Qed.

Lemma total_wait_cons (dt : N) (i : nat) (sched : list (N * nat)) :
  total_wait ((dt, i) :: sched) = (Z.of_N dt + total_wait sched)%Z.
Proof. unfold total_wait. simpl. lia. Qed.

Lemma total_wait_nonneg (sched : list (N * nat)) : (0 <= total_wait sched)%Z.
Proof. unfold total_wait. lia. Qed.

(** One turn of the loop on a state whose queues are known: a promise job,
    or one case for each pending operation the schedule may choose. *)
Ltac pick_cases :=
  lazymatch goal with
  | |- context [step_at _ (Nat.modulo ?i ?n) _] =>
      let H := fresh "Hpick" in
      assert (H : (Nat.modulo i n < n)%nat) by (apply Nat.mod_upper_bound; lia);
      destruct (Nat.modulo i n) as [|[|[|[|]]]];
      try (exfalso; lia); clear H
  | _ => idtac
  end.

Ltac turn := rewrite run_cons; machine; pick_cases; machine_at.

(** The freshness test, decided from what is known about the clock. *)
Ltac clock_facts :=
  repeat rewrite total_wait_cons in *;
  repeat match goal with
         | H : context [total_wait ?l] |- _ =>
             lazymatch goal with
             | _ : (0 <= total_wait l)%Z |- _ => fail
             | _ => pose proof (total_wait_nonneg l)
             end
         end;
  unfold isBefore, oldestValidDate, effective_ttl, defaultTtl in *;
  repeat match goal with
         | H : (_ <? _)%Z = true |- _ => apply Z.ltb_lt in H
         | H : (_ <? _)%Z = false |- _ => apply Z.ltb_ge in H
         end.

Ltac decide_isBefore :=
  match goal with
  | |- context [isBefore ?a ?b] =>
      let Hb := fresh "Hb" in
      destruct (isBefore a b) eqn:Hb;
      try (exfalso; clock_facts; lia)
  end.

Ltac finish :=
  first [ rewrite run_idle by reflexivity
        | erewrite run_crashed by reflexivity ].

Lemma lookup_file_put_eq (p : string) (f : file) (fs : gmap string file) :
  lookup_file (put_file p f fs) p = Some f.
Proof. apply lookup_insert_eq. Qed.

Lemma lookup_file_put_ne (p q : string) (f : file) (fs : gmap string file) :
  p <> q -> lookup_file (put_file p f fs) q = lookup_file fs q.
Proof. intros H. unfold lookup_file, put_file. by rewrite lookup_insert_ne. Qed.

(** A test the evaluation is stuck on: use what is known about it, or
    consider each outcome. *)
Ltac branch :=
  match goal with
  | |- context [match ?X with _ => _ end] =>
      lazymatch X with
      | context [match _ with _ => _ end] => fail
      | _ => idtac
      end;
      first
        [ match goal with H : X = _ |- _ => rewrite H end
        | lazymatch X with
          | lookup_file (put_file ?p _ _) ?p => rewrite lookup_file_put_eq
          | get ?v _ =>
              lazymatch v with
              | VObj _ => idtac
              | VNull => idtac
              | VUndefined => idtac
              | VStr _ => idtac
              | VArr _ => idtac
              end;
              let r := eval cbv [get assoc default from_option id TypeError
                                 String.eqb Ascii.eqb Bool.eqb] in X in
              change X with r
          | isNull _ =>
              let r := eval cbv [isNull] in X in
              lazymatch r with
              | true => change X with true
              | false => change X with false
              end
          | isUndefined _ =>
              let r := eval cbv [isUndefined] in X in
              lazymatch r with
              | true => change X with true
              | false => change X with false
              end
          end
        | lazymatch X with
          | isBefore _ _ =>
              let Hb := fresh "Hb" in
              destruct X eqn:Hb; try (exfalso; clock_facts; lia)
          | _ =>
              lazymatch type of X with
              | bool => destruct X eqn:?
              | option file => destruct X as [[? ?]|] eqn:?
              | option _ => destruct X eqn:?
              | sum _ _ => destruct X eqn:?
              | prod _ _ => destruct X as [? ?] eqn:?
              | http_result => destruct X eqn:?
              end
          end ]
  end.

Ltac settle_stuck := repeat (branch; machine_at).

(** The goal is [Post (run sched S)]: isolate [Post]. *)
Ltac set_post :=
  match goal with
  | |- ?G =>
      match G with
      | context [run ?l ?S] =>
          pattern (run l S);
          match goal with |- ?P _ => set (Post := P) end
      end
  end.

(** Every run from the state in the goal: [stop] closes the goal when the
    schedule ends early, [leaf] when nothing is left to do. *)
Ltac explore n stop leaf :=
  lazymatch n with
  | O => fail "explore: more turns needed"
  | S ?m =>
      tryif finish then leaf
      else
        lazymatch goal with
        | |- context [run ?l _] =>
            let dt := fresh "dt" in
            let i := fresh "i" in
            destruct l as [|[dt i] l];
            [ stop | turn; settle_stuck; explore m stop leaf ]
        end
  end.

Ltac stop_short Hlen := exfalso; simpl in Hlen; lia.

Ltac not_idle :=
  let H := fresh in
  cbv beta; intros H; exfalso;
  cbv [run idle microtasks pending] in H; discriminate H.

Ltac unfold_world w :=
  destruct w as [fs clk unw mi cfg req tds];
  cbv [files clock unwritable movieInfo_response configuration_response
       request_response toDateString] in *;
  repeat match goal with
         | H : context [@lookup _ _ _ _ ?p fs] |- _ =>
             change (fs !! p) with (lookup_file fs p) in H
         end.

(** [isValidCacheFileDate] only reads the clock (and logs): the date is
    valid exactly when it is not older than the time to live. *)
Lemma isValidCacheFileDate_spec (fileDate : Z) (ttl : option Z) (s : state) :
  fst (isValidCacheFileDate fileDate ttl s)
  = Normal (clock (env s) <=? fileDate + effective_ttl ttl)%Z.
Proof.
  unfold isValidCacheFileDate, isBefore, oldestValidDate.
  cbv [mbind M_bind Date_now].
  destruct (Z.ltb_spec fileDate (clock (env s) - effective_ttl ttl));
    destruct (Z.leb_spec (clock (env s)) (fileDate + effective_ttl ttl));
    try lia; reflexivity.
Qed.

Lemma get_defined (v : value) (k : string) :
  isNull v = false -> isUndefined v = false -> exists t, get v k = inl t.
Proof. destruct v; try discriminate; intros _ _; eexists; reflexivity. Qed.

(** Finding two events next to each other in a history. *)
Lemma split_skip {A : Type} (e : A) (l mid : list A) (Q : list A -> Prop) :
  (exists before after, l = before ++ mid ++ after /\ Q after) ->
  exists before after, e :: l = before ++ mid ++ after /\ Q after.
Proof. intros (b & a & -> & H). exists (e :: b), a. split; [reflexivity | exact H]. Qed.

(** The history of a state whose trace is known. *)
Ltac eval_history :=
  repeat match goal with
         | |- context [history ?S] =>
             let h := eval cbv [history trace rev app] in (history S) in
             change (history S) with h
         end.

(** An event that is in no position of a known list. *)
Ltac not_in H :=
  simpl in H; repeat (destruct H as [H|H]; [discriminate H|]);
  lazymatch type of H with False => destruct H end.

(** Filtering a history that extends an unknown one by known events. *)
Ltac filter_history :=
  cbv [history trace]; simpl rev;
  rewrite <- ?app_assoc, !filter_app;
  repeat match goal with
         | |- context [filter ?P [?e]] =>
             let r := eval cbv in (filter P [e]) in
             change (filter P [e]) with r
         end;
  simpl app; rewrite ?app_nil_r.

Ltac in_list := simpl; repeat first [ left; reflexivity | right ].

(** * The claims *)

(** ** C2: cache paths *)

(** C2, as stated, fails: the size and the poster name are put together
    with nothing between them, so [("w50", "0/a.jpg")] and
    [("w500", "/a.jpg")] are two different pairs with the same path. *)
Lemma C2_poster_paths_collide :
  ("0/a.jpg", "w50") <> ("/a.jpg", "w500") /\
  getMoviePosterCachePath "0/a.jpg" "w50" = getMoviePosterCachePath "/a.jpg" "w500".
Proof. split; [discriminate | reflexivity]. Qed.

(** C2, amended: no poster path is ever a metadata path; and two pairs of
    a size without [/] and a poster name that starts with [/] (the shape of
    the names the service gives) have the same path only if they are the same
    pair. *)
Theorem C2_poster_paths_injective (p1 s1 p2 s2 tmdb_id : string) :
  getMoviePosterCachePath p1 s1 <> getInfoCacheFilePathFromId tmdb_id /\
  (slash_free s1 = true -> slash_free s2 = true ->
   starts_with_slash p1 = true -> starts_with_slash p2 = true ->
   getMoviePosterCachePath p1 s1 = getMoviePosterCachePath p2 s2 ->
   p1 = p2 /\ s1 = s2).
Proof.
  split; [apply poster_path_not_info_path|].
  intros Hs1 Hs2 Hp1 Hp2 H.
  apply starts_with_slash_inv in Hp1 as [r1 ->].
  apply starts_with_slash_inv in Hp2 as [r2 ->].
  apply (proj1 (poster_path_eq_iff _ _ _ _)) in H.
  destruct (split_at_slash _ _ _ _ Hs1 Hs2 H) as [-> ->].
  split; reflexivity.
Qed.

Lemma C2_poster_paths_injective_witness :
  getMoviePosterCachePath "/a.jpg" "w500" <> getInfoCacheFilePathFromId "603" /\
  (getMoviePosterCachePath "/a.jpg" "w500" = getMoviePosterCachePath "/a.jpg" "w500" ->
   "/a.jpg" = "/a.jpg" /\ "w500" = "w500").
Proof.
  destruct (C2_poster_paths_injective "/a.jpg" "w500" "/a.jpg" "w500" "603") as [H1 H2].
  split; [exact H1|].
  apply H2; reflexivity.
Defined.

(** ** C1: freshness *)

(** C1, as stated, fails at the boundary: a file written at time [T] and
    checked at time [T + TTL] exactly is still accepted. *)
Lemma C1_fresh_at_ttl :
  let T := 1000%Z in
  let w := World {[ "k" := File "{}" T ]} (T + defaultTtl) (fun _ => false)
                 (fun _ => (VNull, VNull)) (VNull, VNull)
                 (fun _ => HttpError VNull) (fun d => d) in
  clock w = (T + defaultTtl)%Z /\
  fst (isValidCacheFileDate T None (boot w)) = Normal true /\
  promise_state (run [(0%N, 0%nat)] (snd (validateCacheFileDate "k" (boot w)))) 0%nat
  = Some (Settled (Fulfilled fresh_mark)).
Proof. repeat split. Qed.

(** C1, amended: for a file last modified at time [T], the check made at
    time [now] succeeds when [now <= T + TTL] and fails when
    [T + TTL < now]; the rejection carries [null], the [err] of the
    successful [fs.stat].  The time to live is 30 days when none is given. *)
Theorem C1_freshness (w : world) (K : string) (f : file) (dt : N) (i : nat)
    (ttl : option Z) :
  files w !! K = Some f ->
  let T := mtime f in
  let now := (clock w + Z.of_N dt)%Z in
  let s := run [(dt, i)] (snd (validateCacheFileDate K (boot w))) in
  fst (validateCacheFileDate K (boot w)) = Normal 0%nat /\
  ((now <= T + defaultTtl)%Z ->
   promise_state s 0%nat = Some (Settled (Fulfilled fresh_mark))) /\
  ((T + defaultTtl < now)%Z ->
   promise_state s 0%nat = Some (Settled (Rejected VNull))) /\
  fst (isValidCacheFileDate T ttl (boot w))
  = Normal (clock w <=? T + effective_ttl ttl)%Z /\
  effective_ttl None = (30 * 24 * 60 * 60 * 1000)%Z.
Proof.
  intros Hf T now s. subst T now s. unfold_world w. destruct f as [c T].
  cbv [mtime].
  split; [reflexivity|].
  rewrite run_cons. cbv [run].
  split; [|split; [|split; [apply isValidCacheFileDate_spec | reflexivity]]];
    intros Hnow; machine; pick_cases; machine_at; rewrite Hf; machine_at;
    (destruct (isBefore _ _) eqn:Hb; [|]; clock_facts;
     first [ exfalso; lia | reflexivity ]).
Qed.

Lemma C1_freshness_witness :
  let w := World {[ "k" := File "{}" 1000 ]} 5000 (fun _ => false)
                 (fun _ => (VNull, VNull)) (VNull, VNull)
                 (fun _ => HttpError VNull) (fun d => d) in
  files w !! "k" = Some (File "{}" 1000) /\
  promise_state (run [(7%N, 0%nat)] (snd (validateCacheFileDate "k" (boot w)))) 0%nat
  = Some (Settled (Fulfilled fresh_mark)).
Proof.
  intros w.
  assert (Hf : files w !! "k" = Some (File "{}" 1000)) by reflexivity.
  split; [exact Hf|].
  destruct (C1_freshness w "k" (File "{}" 1000) 7%N 0%nat None Hf) as (_ & H & _).
  apply H. vm_compute. discriminate.
Defined.

(** ** C5: a poster that is in the cache *)

(** C5: without a size the path is the one of size ["original"]; when the
    file is there and fresh, the promise is fulfilled with that path after
    [fs.stat] alone: nothing is read, no configuration is looked up, nothing
    is requested. *)
Theorem C5_poster_cache_hit (w : world) (posterFileName : string) (f : file)
    (dt : N) (i : nat) (sched : list (N * nat)) :
  let destPath := getMoviePosterCachePath posterFileName "original" in
  files w !! destPath = Some f ->
  (clock w + Z.of_N dt <= mtime f + defaultTtl)%Z ->
  (2 <= length sched)%nat ->
  let s := run ((dt, i) :: sched) (snd (getMoviePoster posterFileName None (boot w))) in
  fst (getMoviePoster posterFileName None (boot w)) = Normal 0%nat /\
  idle s = true /\
  promise_state s 0%nat = Some (Settled (Fulfilled (VStr destPath))) /\
  filter is_io (history s) = [started (fs_stat destPath)] /\
  tmdbImagesBaseUrl s = VUndefined.
Proof.
  intros destPath Hf Hfresh Hlen s. subst s destPath. unfold_world w.
  destruct f as [c T]. cbv [mtime] in Hfresh.
  split; [reflexivity|].
  set_post. machine.
  turn. rewrite Hf. machine_at.
  destruct (isBefore _ _) eqn:Hb; [exfalso; clock_facts; lia|].
  explore 10%nat ltac:(stop_short Hlen) ltac:(subst Post; cbv beta; repeat split).
Qed.

Lemma C5_poster_cache_hit_witness :
  let path := getMoviePosterCachePath "/p.jpg" "original" in
  let w := World {[ path := File "JPEG" 1000 ]} 5000 (fun _ => false)
                 (fun _ => (VNull, VNull)) (VNull, VNull)
                 (fun _ => HttpError VNull) (fun d => d) in
  files w !! path = Some (File "JPEG" 1000) /\
  promise_state (run [(1%N, 0%nat); (0%N, 0%nat); (0%N, 0%nat)]
                     (snd (getMoviePoster "/p.jpg" None (boot w)))) 0%nat
  = Some (Settled (Fulfilled (VStr path))).
Proof.
  intros path w.
  assert (Hf : files w !! path = Some (File "JPEG" 1000)) by reflexivity.
  split; [exact Hf|].
  refine (proj1 (proj2 (proj2 (C5_poster_cache_hit w "/p.jpg" (File "JPEG" 1000) 1%N 0%nat
                 [(0%N, 0%nat); (0%N, 0%nat)] Hf _ _)))).
  - vm_compute. discriminate.
  - simpl. lia.
Defined.

(** ** C8: what is written is what is read *)



(** ** C4: the cache write does not hold back the result *)

(** C4: on a cache miss, when the service answers without error, the
    promise is fulfilled with the answer in the turn that starts the cache
    write, so before that write finishes; when the write fails the error is
    given to [console.error] and the promise stays fulfilled. *)
Theorem C4_resolves_before_cache_write (w : world) (id : string) (data : value)
    (sched : list (N * nat)) :
  let path := getInfoCacheFilePathFromId id in
  let fileContents := file_data (JSON_stringify data) in
  movieInfo_response w id = (VNull, data) ->
  isNull data = false -> isUndefined data = false ->
  (30 <= length sched)%nat ->
  let s := run sched (snd (getMovieInfo id (boot w))) in
  In (started (MovieDB_movieInfo id)) (trace s) ->
  fst (getMovieInfo id (boot w)) = Normal 0%nat /\
  idle s = true /\ crashed s = None /\
  promise_state s 0%nat = Some (Settled (Fulfilled data)) /\
  (exists before after,
     history s = before ++ [started (fs_writeFile path fileContents);
                            settles 0%nat (Fulfilled data)] ++ after /\
     exists r, In (finished (fs_writeFile path fileContents) r) after /\
       (unwritable w path = true ->
        r = io_error (EACCES path) /\ In (console_error [EACCES path]) after)).
Proof.
  intros path fileContents Hmi Hnull Hundef Hlen s. subst s path fileContents.
  unfold_world w.
  destruct (get_defined data "title" Hnull Hundef) as [title Hget].
  intros Hin0. split; [reflexivity|]. revert Hin0.
  set_post. machine.
  explore 40%nat ltac:(stop_short Hlen)
    ltac:(subst Post; cbv beta; intros Hin;
          first
            [ exfalso; not_in Hin
            | split; [reflexivity|]; split; [reflexivity|]; split; [reflexivity|];
              eval_history;
              repeat first
                [ exists []; eexists; split; [reflexivity|];
                  eexists; split; [in_list|];
                  let Hu := fresh in
                  intros Hu; first [ congruence | split; [reflexivity | in_list] ]
                | apply split_skip ] ]).
Qed.

Lemma C4_resolves_before_cache_write_witness :
  let V := VObj [("title", VStr "The Matrix"); ("poster_path", VStr "/poster.jpg")] in
  let w := World ∅ 5000 (fun _ => true) (fun _ => (VNull, V)) (VNull, VNull)
                 (fun _ => HttpError VNull) (fun d => d) in
  let s := run (replicate 30 (1%N, 0%nat)) (snd (getMovieInfo "603" (boot w))) in
  In (started (MovieDB_movieInfo "603")) (trace s) /\
  promise_state s 0%nat = Some (Settled (Fulfilled V)) /\
  In (console_error [EACCES (getInfoCacheFilePathFromId "603")]) (trace s).
Proof.
  intros V w s.
  assert (Hin : In (started (MovieDB_movieInfo "603")) (trace s))
    by (vm_compute; repeat first [left; reflexivity | right]).
  split; [exact Hin|].
  destruct (C4_resolves_before_cache_write w "603" V (replicate 30 (1%N, 0%nat))
              eq_refl eq_refl eq_refl) as (_ & _ & _ & H & _).
  - vm_compute. lia.
  - exact Hin.
  - split; [exact H|].
    vm_compute; repeat first [left; reflexivity | right].
Defined.

(** ** C6: the base URL singleton *)

Lemma getTMDBImagesBaseUrl_already_set (st : state) :
  isUndefined (tmdbImagesBaseUrl st) = false ->
  getTMDBImagesBaseUrl st =
  (Normal (length (promises st)),
   State (env st) (tmdbImagesBaseUrl st) (movies st)
         (promises st ++ [Settled (Fulfilled (tmdbImagesBaseUrl st))])
         (alls st) (microtasks st) (pending st)
         (settles (length (promises st)) (Fulfilled (tmdbImagesBaseUrl st))
          :: console_log [VStr "tmdbImagesBaseUrl already set."] :: trace st)
         (crashed st)).
Proof.
  intros H. destruct st as [e g m ps al mt pe tr cr]. simpl in H.
  unfold getTMDBImagesBaseUrl, new_Promise, alloc_promise.
  cbv [promises set_promises tmdbImagesBaseUrl env movies alls microtasks pending
       trace crashed].
  rewrite H.
  cbv [negb log emit modify mbind M_bind resolve settle set_trace set_microtasks
       set_promises promises tmdbImagesBaseUrl env movies alls microtasks pending
       trace crashed snd].
  rewrite list_lookup_middle by reflexivity.
  rewrite app_nil_r.
  replace (<[length ps:=Settled (Fulfilled g)]> (ps ++ [Pending []]))
    with (ps ++ [Settled (Fulfilled g)]); [reflexivity|].
  rewrite insert_app_r_alt by lia. rewrite Nat.sub_diag. reflexivity.
Qed.

Lemma split_skip0 {A : Type} (e : A) (l mid : list A) :
  (exists before after, l = before ++ mid ++ after) ->
  exists before after, e :: l = before ++ mid ++ after.
Proof. intros (b & a & ->). exists (e :: b), a. reflexivity. Qed.

(** C6: with the singleton set, a call only logs and fulfils its promise
    with the stored value before it returns, starting no operation; and in a
    process where the singleton was not set, at every moment at which the
    returned promise is fulfilled the singleton holds the value, its
    assignment being the event just before the promise settles. *)
Theorem C6_base_url_singleton (st : state) (w : world) (sched : list (N * nat))
    (v : value) :
  (tmdbImagesBaseUrl st = v -> isUndefined v = false ->
   let r := getTMDBImagesBaseUrl st in
   let p := length (promises st) in
   fst r = Normal p /\
   promise_state (snd r) p = Some (Settled (Fulfilled v)) /\
   env (snd r) = env st /\ pending (snd r) = pending st /\
   microtasks (snd r) = microtasks st /\
   trace (snd r) = settles p (Fulfilled v)
                   :: console_log [VStr "tmdbImagesBaseUrl already set."] :: trace st /\
   tmdbImagesBaseUrl (snd r) = v) /\
  (let s := run sched (snd (getTMDBImagesBaseUrl (boot w))) in
   promise_state s 0%nat = Some (Settled (Fulfilled v)) ->
   tmdbImagesBaseUrl s = v /\
   exists before after,
     history s = before ++ [assigns_tmdbImagesBaseUrl v; settles 0%nat (Fulfilled v)]
                 ++ after).
Proof.
  split.
  - intros <- Hset r p. subst r p.
    rewrite (getTMDBImagesBaseUrl_already_set st Hset). cbv [fst snd].
    repeat split.
    unfold promise_state. cbv [promises].
    apply list_lookup_middle. reflexivity.
  - intros s. subst s. unfold_world w. revert v.
    set_post. machine. settle_stuck.
    explore 40%nat
      ltac:(subst Post; cbv beta; cbv [run]; intros val Hval;
            cbv [promise_state promises lookup list_lookup] in Hval;
            first
              [ discriminate Hval
              | injection Hval as <-; split; [reflexivity|];
                eval_history;
                repeat first [ exists []; eexists; reflexivity | apply split_skip0 ] ])
      ltac:(subst Post; cbv beta; intros val Hval;
            cbv [promise_state promises lookup list_lookup] in Hval;
            first
              [ discriminate Hval
              | injection Hval as <-; split; [reflexivity|];
                eval_history;
                repeat first [ exists []; eexists; reflexivity | apply split_skip0 ] ]).
Qed.

Lemma C6_base_url_singleton_witness :
  let cfg := VObj [("images", VObj [("base_url", VStr "http://image.tmdb.org/t/p/")])] in
  let w := World ∅ 5000 (fun _ => false) (fun _ => (VNull, VNull)) (VNull, cfg)
                 (fun _ => HttpError VNull) (fun d => d) in
  let s := run (replicate 30 (1%N, 0%nat)) (snd (getTMDBImagesBaseUrl (boot w))) in
  let v := VStr "http://image.tmdb.org/t/p/" in
  promise_state s 0%nat = Some (Settled (Fulfilled v)) /\
  tmdbImagesBaseUrl s = v /\
  promise_state (snd (getTMDBImagesBaseUrl s)) (length (promises s))
  = Some (Settled (Fulfilled v)) /\
  pending (snd (getTMDBImagesBaseUrl s)) = pending s.
Proof.
  intros cfg w s v.
  assert (Hp : promise_state s 0%nat = Some (Settled (Fulfilled v)))
    by (vm_compute; reflexivity).
  destruct (C6_base_url_singleton s w (replicate 30 (1%N, 0%nat)) v) as [Ha Hb].
  destruct (Hb Hp) as [Hv _].
  destruct (Ha Hv eq_refl) as (_ & H1 & _ & H2 & _).
  split; [exact Hp|]. split; [exact Hv|]. split; [exact H1 | exact H2].
Defined.

(** ** C9: what the service callbacks do after an error *)

(** C9, as stated, fails for [fetchAPIConfiguration]: its callback reads no
    field of the response.  With an error and [null] data it rejects, logs,
    starts the write of ["null"] and ends without an exception. *)
Lemma C9_configuration_fetch_no_dereference :
  let err := VError "Error" "ETIMEDOUT" in
  let w := World ∅ 5000 (fun _ => false) (fun _ => (VNull, VNull)) (err, VNull)
                 (fun _ => HttpError VNull) (fun d => d) in
  let s := run (replicate 30 (1%N, 0%nat)) (snd (getAPIConfiguration (boot w))) in
  In (finished MovieDB_configuration (io_reply err VNull)) (trace s) /\
  crashed s = None /\ idle s = true /\
  promise_state s 0%nat = Some (Settled (Rejected err)) /\
  In (finished (fs_writeFile configCacheFilePath "null") io_done) (trace s).
Proof.
  vm_compute. repeat split; repeat first [left; reflexivity | right].
Qed.

(** C9, amended.  In both callbacks a non-null error rejects the promise and
    execution goes on.  In [fetchMovieInfo] the next statement reads
    [data.title]: with [null] or [undefined] data that read throws, outside
    any promise, after the rejection and before any write is started.  In
    [fetchAPIConfiguration] no field is read: the callback logs, starts the
    write of the response and calls [resolve], which changes nothing; no
    exception is thrown whatever the data. *)
Theorem C9_callbacks_continue_after_reject (w : world) (id : string) (err data : value)
    (sched : list (N * nat)) :
  isNull err = false ->
  (movieInfo_response w id = (err, data) ->
   isNull data || isUndefined data = true ->
   let s := run sched (snd (getMovieInfo id (boot w))) in
   In (finished (MovieDB_movieInfo id) (io_reply err data)) (trace s) ->
   promise_state s 0%nat = Some (Settled (Rejected err)) /\
   (exists e, get data "title" = inr e /\ crashed s = Some e) /\
   forall c, ~ In (started (fs_writeFile (getInfoCacheFilePathFromId id) c)) (trace s)) /\
  (configuration_response w = (err, data) ->
   let s := run sched (snd (getAPIConfiguration (boot w))) in
   In (finished MovieDB_configuration (io_reply err data)) (trace s) ->
   crashed s = None /\
   promise_state s 0%nat = Some (Settled (Rejected err)) /\
   In (started (fs_writeFile configCacheFilePath (file_data (JSON_stringify data))))
      (trace s)).
Proof.
  intros Herr. split.
  - intros Hmi Hdata s. subst s. unfold_world w.
    assert (Hget : exists e, get data "title" = inr e).
    { destruct data; try discriminate Hdata; eexists; reflexivity. }
    destruct Hget as [e Hget].
    set_post. machine. settle_stuck.
    explore 40%nat
      ltac:(subst Post; cbv beta; cbv [run]; intros Hin;
            first
              [ exfalso; not_in Hin
              | split; [reflexivity|]; split; [exists e; split; [exact Hget | reflexivity]|];
                let c := fresh in let Hc := fresh in
                intros c Hc; not_in Hc ])
      ltac:(subst Post; cbv beta; intros Hin;
            first
              [ exfalso; not_in Hin
              | split; [reflexivity|]; split; [exists e; split; [exact Hget | reflexivity]|];
                let c := fresh in let Hc := fresh in
                intros c Hc; not_in Hc ]).
  - intros Hcfg s. subst s. unfold_world w.
    set_post. machine. settle_stuck.
    explore 40%nat
      ltac:(subst Post; cbv beta; cbv [run]; intros Hin;
            first
              [ exfalso; not_in Hin
              | split; [reflexivity|]; split; [reflexivity | in_list] ])
      ltac:(subst Post; cbv beta; intros Hin;
            first
              [ exfalso; not_in Hin
              | split; [reflexivity|]; split; [reflexivity | in_list] ]).
Qed.

(** ** C10: a failed configuration lookup *)

(** C10: when the configuration has to be fetched and the fetch reports an
    error, the promise of [getTMDBImagesBaseUrl] is rejected with the value
    of [tmdbImagesBaseUrl], which is [undefined], not with the error; and a
    poster resolution that needs the base URL is rejected with [undefined]
    too, the singleton staying unset. *)
Theorem C10_rejects_with_undefined (w : world) (posterFileName : string)
    (size : option string) (err data : value) (sched : list (N * nat)) :
  configuration_response w = (err, data) ->
  isNull err = false ->
  (60 <= length sched)%nat ->
  (let s := run sched (snd (getTMDBImagesBaseUrl (boot w))) in
   In (started MovieDB_configuration) (trace s) ->
   idle s = true /\
   promise_state s 0%nat = Some (Settled (Rejected VUndefined)) /\
   tmdbImagesBaseUrl s = VUndefined) /\
  (let s := run sched (snd (getMoviePoster posterFileName size (boot w))) in
   In (started MovieDB_configuration) (trace s) ->
   idle s = true /\
   promise_state s 0%nat = Some (Settled (Rejected VUndefined)) /\
   tmdbImagesBaseUrl s = VUndefined).
Proof.
  intros Hcfg Herr Hlen. split; intros s; subst s; unfold_world w.
  - set_post. machine. settle_stuck.
    explore 70%nat ltac:(stop_short Hlen)
      ltac:(subst Post; cbv beta; intros Hin;
            first [ exfalso; not_in Hin | repeat split ]).
  - replace (getMoviePoster posterFileName size)
      with (getMoviePoster posterFileName (Some (default "original" size)))
      by (destruct size; reflexivity).
    generalize (default "original" size) as sz. intros sz.
    set_post. machine. settle_stuck.
    explore 70%nat ltac:(stop_short Hlen)
      ltac:(subst Post; cbv beta; intros Hin;
            first [ exfalso; not_in Hin | repeat split ]).
Qed.


Lemma C9_callbacks_continue_after_reject_witness :
  let err := VError "Error" "Not Found" in
  let w := World ∅ 5000 (fun _ => false) (fun _ => (err, VNull)) (err, VNull)
                 (fun _ => HttpError VNull) (fun d => d) in
  let s := run (replicate 30 (1%N, 0%nat)) (snd (getMovieInfo "603" (boot w))) in
  In (finished (MovieDB_movieInfo "603") (io_reply err VNull)) (trace s) /\
  promise_state s 0%nat = Some (Settled (Rejected err)) /\
  exists e, get VNull "title" = inr e /\ crashed s = Some e.
Proof.
  intros err w s.
  assert (Hin : In (finished (MovieDB_movieInfo "603") (io_reply err VNull)) (trace s))
    by (vm_compute; repeat first [left; reflexivity | right]).
  split; [exact Hin|].
  destruct (C9_callbacks_continue_after_reject w "603" err VNull
              (replicate 30 (1%N, 0%nat)) eq_refl) as [H _].
  destruct (H eq_refl eq_refl Hin) as (H1 & H2 & _).
  split; [exact H1 | exact H2].
Defined.

Lemma C10_rejects_with_undefined_witness :
  let err := VError "Error" "ENOTFOUND api.themoviedb.org" in
  let w := World ∅ 5000 (fun _ => false) (fun _ => (VNull, VNull)) (err, VNull)
                 (fun _ => HttpError VNull) (fun d => d) in
  let s := run (replicate 60 (1%N, 0%nat)) (snd (getMoviePoster "/poster.jpg" None (boot w))) in
  In (started MovieDB_configuration) (trace s) /\
  promise_state s 0%nat = Some (Settled (Rejected VUndefined)).
Proof.
  intros err w s.
  assert (Hin : In (started MovieDB_configuration) (trace s))
    by (vm_compute; repeat first [left; reflexivity | right]).
  split; [exact Hin|].
  destruct (C10_rejects_with_undefined w "/poster.jpg" None err VNull
              (replicate 60 (1%N, 0%nat)) eq_refl eq_refl) as [_ H].
  - vm_compute. lia.
  - destruct (H Hin) as (_ & H1 & _). exact H1.
Defined.

(** ** C3: the second resolution is a cache hit *)

(** After a first call that fetched and whose write succeeded: the process
    is at rest, the cache file holds what was fetched, and the fetched value
    has a readable [title]. *)
Lemma getMovieInfo_after_fetch (w : world) (id : string) (sched : list (N * nat)) :
  let path := getInfoCacheFilePathFromId id in
  let data := snd (movieInfo_response w id) in
  let s := run sched (snd (getMovieInfo id (boot w))) in
  idle s = true ->
  In (started (MovieDB_movieInfo id)) (trace s) ->
  (exists c, In (finished (fs_writeFile path c) io_done) (trace s)) ->
  microtasks s = [] /\ pending s = [] /\ crashed s = None /\
  length (promises s) = 14%nat /\ length (alls s) = 1%nat /\
  (exists t, lookup_file (files (env s)) path
             = Some (File (file_data (JSON_stringify data)) t)) /\
  (exists title, get data "title" = inl title).
Proof.
  intros path data s. subst s data path. unfold_world w.
  destruct (mi id) as [err data] eqn:Hmi. cbv [snd].
  set_post. machine. settle_stuck.
  explore 40%nat
    ltac:(subst Post; not_idle)
    ltac:(subst Post; cbv beta;
          let Hidle := fresh "Hidle" in
          let Hfetch := fresh "Hfetch" in
          let Hwrite := fresh "Hwrite" in
          intros Hidle Hfetch Hwrite;
          first
            [ exfalso; not_in Hfetch
            | exfalso; destruct Hwrite as [? Hwrite]; not_in Hwrite
            | exfalso; cbv [idle microtasks pending] in Hidle; discriminate Hidle
            | do 5 (split; [reflexivity|]); cbv beta iota delta [env files];
              split; [ eexists; apply lookup_file_put_eq
                     | eexists; first [ eassumption | reflexivity ] ] ]).
Qed.

(** A call in a process at rest whose cache file for [id] is fresh and
    holds a value with a readable [title]. *)
Lemma getMovieInfo_hit (s1 : state) (id : string) (data title : value) (t : Z)
    (d : N) (sched : list (N * nat)) :
  let path := getInfoCacheFilePathFromId id in
  microtasks s1 = [] -> pending s1 = [] -> crashed s1 = None ->
  length (promises s1) = 14%nat -> length (alls s1) = 1%nat ->
  lookup_file (files (env s1)) path = Some (File (file_data (JSON_stringify data)) t) ->
  JSON_parse (file_data (JSON_stringify data)) = Some data ->
  get data "title" = inl title ->
  (20 <= length sched)%nat ->
  (clock (env s1) + Z.of_N d + total_wait sched <= t + defaultTtl)%Z ->
  let call := getMovieInfo id (later d s1) in
  let s2 := run sched (snd call) in
  fst call = Normal 14%nat /\
  idle s2 = true /\
  promise_state s2 14%nat = Some (Settled (Fulfilled data)) /\
  filter is_network (history s2) = filter is_network (history s1) /\
  filter is_io (history s2)
  = filter is_io (history s1) ++ [started (fs_stat path); started (fs_readFile path)].
Proof.
  intros path Hmt Hpe Hcr Hps Hal Hf Hparse Hget Hlen Hfresh call s2.
  subst s2 call path.
  destruct s1 as [[fs clk unw mi cfg req tds] g mv ps al mt pe tr cr].
  cbv [microtasks pending crashed promises alls env files clock] in *.
  subst mt pe cr.
  do 15 (destruct ps as [|? ps]; try discriminate Hps).
  do 2 (destruct al as [|? al]; try discriminate Hal).
  clear Hps Hal.
  set_post. machine. settle_stuck.
  explore 20%nat ltac:(stop_short Hlen)
    ltac:(subst Post; cbv beta;
          split; [reflexivity|]; split; [reflexivity|]; split; [reflexivity|];
          filter_history; split; reflexivity).
Qed.



(** ** C7: one post's failure and the rest of the batch *)

(** C7 fails on the code.  Two posts, an empty cache, and a service that
    answers the request for the first post with an error and [null] data: the
    callback of [fetchMovieInfo] rejects, then reads [data.title] and throws
    outside any promise.  The process ends there: the rejection is never
    logged, and the request for the second post, already started, is never
    answered to the program, so that post stays unresolved.  With an error
    that comes with an object as data the same batch runs to its end and the
    second post gets its metadata and its poster. *)
Theorem C7_failed_fetch_aborts_batch :
  let s := run (replicate 100 (1%N, 0%nat))
               (snd (main two_posts (boot (service_without_1 VNull)))) in
  let s' := run (replicate 100 (1%N, 0%nat))
                (snd (main two_posts (boot (service_without_1 (VObj []))))) in
  crashed s = Some (TypeError "Cannot read property 'title' of null") /\
  idle s = false /\
  In (started (MovieDB_movieInfo "603")) (trace s) /\
  filter (is_reply_for "603") (trace s) = [] /\
  filter is_console (trace s) = [] /\
  crashed s' = None /\ idle s' = true /\
  In (finished (MovieDB_movieInfo "603") (io_reply VNull matrix)) (trace s') /\
  In (settles 13%nat (Fulfilled matrix)) (trace s') /\
  files (env s') !! getMoviePosterCachePath "/poster.jpg" "original"
  = Some (File "JPEG" 5015).
Proof.
  vm_compute.
  do 9 (split; [first [reflexivity | repeat first [left; reflexivity | right]]|]).
  reflexivity.
Qed.

(** * The batch driver: the synchronous helpers *)

Section objects.

Lemma assoc_obj_set_eq (k : string) (x : value) (o : list (string * value)) :
  assoc k (obj_set k x o) = Some x.
Proof.
  induction o as [|[k' y] o IH]; simpl.
  - rewrite String.eqb_refl. reflexivity.
  - destruct (String.eqb k k') eqn:E; simpl; rewrite E; [reflexivity | exact IH].
Qed.

Lemma assoc_obj_set_ne (k k' : string) (x : value) (o : list (string * value)) :
  k <> k' -> assoc k' (obj_set k x o) = assoc k' o.
Proof.
  intros Hne. induction o as [|[k0 y] o IH]; simpl.
  - destruct (String.eqb k' k) eqn:E; [|reflexivity].
    apply String.eqb_eq in E. congruence.
  - destruct (String.eqb k k0) eqn:E; simpl.
    + apply String.eqb_eq in E. subst k0.
      destruct (String.eqb k' k) eqn:E'; [|reflexivity].
      apply String.eqb_eq in E'. congruence.
    + destruct (String.eqb k' k0); [reflexivity | exact IH].
Qed.

Lemma extend_snoc (o src : list (string * value)) (k : string) (x : value) :
  extend o (src ++ [(k, x)]) = obj_set k x (extend o src).
Proof. unfold extend. rewrite foldl_app. reflexivity. Qed.

(** A property the source of [_.extend] does not have is left as it was. *)
Lemma assoc_extend_absent (k : string) (o src : list (string * value)) :
  assoc k src = None -> assoc k (extend o src) = assoc k o.
Proof.
  revert o. induction src as [|[k' x] src IH]; intros o H; [reflexivity|].
  simpl in H. destruct (String.eqb k k') eqn:E; [discriminate H|].
  change (extend o ((k', x) :: src)) with (extend (obj_set k' x o) src).
  rewrite (IH _ H). apply assoc_obj_set_ne.
  intros ->. rewrite String.eqb_refl in E. discriminate E.
Qed.

End objects.

(** ** [getMetaValue] *)

Lemma getMetaValue_absent (metaKey : string) (postmeta : list (string * string)) :
  getMetaValue metaKey postmeta = VBool false <-> ~ In metaKey (map fst postmeta).
Proof.
  unfold getMetaValue. induction postmeta as [|[k v] r IH]; simpl.
  - split; [intros _ [] | reflexivity].
  - destruct (String.eqb k metaKey) eqn:E.
    + apply String.eqb_eq in E. subst k.
      split; [discriminate | intros H; destruct H; left; reflexivity].
    + apply String.eqb_neq in E. rewrite IH.
      split; [intros H [H'|H']; [exact (E H') | exact (H H')]
             | intros H H'; apply H; right; exact H'].
Qed.

(** [getMetaValue] gives [false] exactly when no entry has the key, and
    otherwise the value of the first entry that has it. *)
Theorem getMetaValue_first_match (metaKey : string) (postmeta : list (string * string)) :
  (getMetaValue metaKey postmeta = VBool false <-> ~ In metaKey (map fst postmeta)) /\
  (forall before value after,
     postmeta = before ++ (metaKey, value) :: after ->
     ~ In metaKey (map fst before) ->
     getMetaValue metaKey postmeta = VStr value).
Proof.
  split; [apply getMetaValue_absent|].
  unfold getMetaValue. intros before v after -> Hb.
  induction before as [|[k x] b IH]; simpl.
  - rewrite String.eqb_refl. reflexivity.
  - destruct (String.eqb k metaKey) eqn:E.
    + apply String.eqb_eq in E. subst k. destruct Hb. left. reflexivity.
    + apply IH. intros H. apply Hb. right. exact H.
Qed.

Lemma getMetaValue_first_match_witness :
  getMetaValue "tmdb_id" [("imdb_id", "tt0133093"); ("tmdb_id", "603"); ("tmdb_id", "604")]
  = VStr "603".
Proof.
  apply (proj2 (getMetaValue_first_match "tmdb_id" _) [("imdb_id", "tt0133093")] "603"
               [("tmdb_id", "604")] eq_refl).
  simpl. intros [H|[]]. discriminate H.
Defined.

(** ** [processWPCategories] *)

Lemma processWPCategories_snoc (categories : list string) (c : string) :
  processWPCategories (categories ++ [c])
  = let movie := processWPCategories categories in
    if is_location c then obj_set "location" (VStr c) movie
    else if is_frequency c then obj_set "frequency" (VStr (frequencies c)) movie
    else obj_set "features"
           (push (VStr c) (default VUndefined (assoc "features" movie))) movie.
Proof. unfold processWPCategories. rewrite foldl_app. reflexivity. Qed.

Lemma filter_snoc_bool {A : Type} (P : A -> bool) (l : list A) (x : A) :
  filter P (l ++ [x]) = if P x then filter P l ++ [x] else filter P l.
Proof.
  rewrite filter_app. unfold filter at 2. simpl.
  destruct (P x); simpl; [reflexivity | apply app_nil_r].
Qed.

Lemma class_exclusive (c : string) :
  is_location c = true -> is_frequency c = false.
Proof.
  unfold is_location, is_frequency. intros H.
  repeat (apply orb_prop in H as [H|H]);
    apply String.eqb_eq in H; subst c; reflexivity.
Qed.

Lemma processWPCategories_other_keys (categories : list string) (k : string) :
  k <> "location" -> k <> "frequency" -> k <> "features" ->
  assoc k (processWPCategories categories) = None.
Proof.
  intros H1 H2 H3.
  induction categories as [|c cs IH] using rev_ind.
  - simpl. destruct (String.eqb k "features") eqn:E; [|reflexivity].
    apply String.eqb_eq in E. congruence.
  - rewrite processWPCategories_snoc. cbv zeta.
    destruct (is_location c); [|destruct (is_frequency c)];
      rewrite assoc_obj_set_ne by congruence; exact IH.
Qed.

(** The object [processWPCategories] builds: [location] is the last
    location category, [frequency] the entry of the table for the last
    frequency category, [features] the other categories in their order; it
    has no other property. *)
Theorem processWPCategories_classifies (categories : list string) :
  let movie := processWPCategories categories in
  assoc "location" movie = VStr <$> last (filter is_location categories) /\
  assoc "frequency" movie
  = (fun c => VStr (frequencies c)) <$> last (filter is_frequency categories) /\
  assoc "features" movie = Some (VArr (VStr <$> filter is_feature categories)) /\
  (forall k, k <> "location" -> k <> "frequency" -> k <> "features" ->
             assoc k movie = None) /\
  frequencies "first-view" = "first" /\
  frequencies "functional-first-time" = "functional-first" /\
  frequencies "repeat" = "repeat" /\ frequencies "regular" = "regular".
Proof.
  cbv zeta.
  split; [|split; [|split; [|split; [|repeat split]]]].
  - induction categories as [|c cs IH] using rev_ind; [reflexivity|].
    rewrite processWPCategories_snoc, filter_snoc_bool. cbv zeta.
    destruct (is_location c) eqn:Hl.
    + rewrite assoc_obj_set_eq, last_snoc. reflexivity.
    + destruct (is_frequency c); rewrite assoc_obj_set_ne by discriminate; exact IH.
  - induction categories as [|c cs IH] using rev_ind; [reflexivity|].
    rewrite processWPCategories_snoc, filter_snoc_bool. cbv zeta.
    destruct (is_location c) eqn:Hl.
    + rewrite (class_exclusive c Hl), assoc_obj_set_ne by discriminate. exact IH.
    + destruct (is_frequency c).
      * rewrite assoc_obj_set_eq, last_snoc. reflexivity.
      * rewrite assoc_obj_set_ne by discriminate. exact IH.
  - induction categories as [|c cs IH] using rev_ind; [reflexivity|].
    rewrite processWPCategories_snoc, filter_snoc_bool. cbv zeta.
    unfold is_feature at 1.
    destruct (is_location c) eqn:Hl; simpl.
    + rewrite assoc_obj_set_ne by discriminate. exact IH.
    + destruct (is_frequency c); simpl.
      * rewrite assoc_obj_set_ne by discriminate. exact IH.
      * rewrite assoc_obj_set_eq, IH. simpl. rewrite fmap_app. reflexivity.
  - intros k. apply processWPCategories_other_keys.
Qed.

Lemma processWPCategories_classifies_witness :
  let movie := processWPCategories ["home"; "3d"; "repeat"; "theater"; "imax"] in
  assoc "location" movie = Some (VStr "theater") /\
  assoc "features" movie = Some (VArr [VStr "3d"; VStr "imax"]) /\
  assoc "title" movie = None.
Proof.
  intros movie.
  destruct (processWPCategories_classifies ["home"; "3d"; "repeat"; "theater"; "imax"])
    as (H1 & _ & H3 & H4 & _).
  split; [exact H1|]. split; [exact H3|].
  apply H4; discriminate.
Defined.

(** ** [getRelevantMovieInfo] *)

Lemma genre_names_defined (gs : list value) (s : state) :
  forallb defined gs = true ->
  genre_names gs s = (Normal (map name_of gs), s).
Proof.
  induction gs as [|g gs IH]; intros H; [reflexivity|].
  simpl in H. apply andb_prop in H as [Hg Hgs].
  simpl. cbv [mbind M_bind]. unfold name_of at 1.
  destruct g; try discriminate Hg; simpl; rewrite (IH Hgs); reflexivity.
Qed.

Lemma assoc_pick (fields : list (string * value)) (keys : list string) (k : string) :
  assoc k (pick (VObj fields) keys) = if bool_decide (k ∈ keys) then assoc k fields else None.
Proof.
  unfold pick. induction keys as [|k' keys IH]; [reflexivity|].
  unfold omap in IH. simpl. destruct (bool_decide (k ∈ k' :: keys)) eqn:Hin.
  - apply bool_decide_eq_true in Hin.
    destruct (assoc k' fields) as [x|] eqn:Hk'; simpl.
    + destruct (String.eqb k k') eqn:E.
      * apply String.eqb_eq in E. subst k'. symmetry. exact Hk'.
      * rewrite IH. apply String.eqb_neq in E.
        rewrite bool_decide_eq_true_2; [reflexivity|].
        apply elem_of_cons in Hin as [?|?]; [congruence | assumption].
    + rewrite IH. destruct (bool_decide (k ∈ keys)) eqn:Hin'; [reflexivity|].
      apply bool_decide_eq_false in Hin'.
      apply elem_of_cons in Hin as [->|?]; [symmetry; exact Hk' | contradiction].
  - apply bool_decide_eq_false in Hin.
    assert (Hne : k <> k') by (intros ->; apply Hin; left).
    assert (Hnin : k ∉ keys) by (intros ?; apply Hin; right; assumption).
    destruct (assoc k' fields) as [x|]; simpl.
    + apply String.eqb_neq in Hne. rewrite Hne, IH.
      rewrite bool_decide_eq_false_2; [reflexivity | exact Hnin].
    + rewrite IH. rewrite bool_decide_eq_false_2; [reflexivity | exact Hnin].
Qed.

(** On an object whose genres can all be read, [getRelevantMovieInfo]
    returns an object with the four picked properties the movie has, with
    [genres] the array of the genres' names (empty when the movie has no
    [genres]) and with nothing else; the state is not touched. *)
Theorem getRelevantMovieInfo_object (fields : list (string * value)) (s : state) :
  let genres := elements_of (default VUndefined (assoc "genres" fields)) in
  forallb defined genres = true ->
  exists relevantInfo,
    getRelevantMovieInfo (VObj fields) s = (Normal relevantInfo, s) /\
    assoc "genres" relevantInfo = Some (VArr (map name_of genres)) /\
    (forall k, k ∈ picked -> assoc k relevantInfo = assoc k fields) /\
    (forall k, k ∉ picked -> k <> "genres" -> assoc k relevantInfo = None).
Proof.
  intros genres Hg. unfold getRelevantMovieInfo.
  cbv [mbind M_bind read get mret M_ret].
  fold genres. rewrite (genre_names_defined genres s Hg).
  eexists. split; [reflexivity|].
  split; [apply assoc_obj_set_eq|]. split.
  - intros k Hk. rewrite assoc_obj_set_ne.
    + fold picked. rewrite assoc_pick, bool_decide_eq_true_2; [reflexivity | exact Hk].
    + intros <-. unfold picked in Hk.
      repeat (apply elem_of_cons in Hk as [Hk|Hk]; [discriminate Hk|]).
      inversion Hk.
  - intros k Hk Hne. rewrite assoc_obj_set_ne by congruence.
    fold picked. rewrite assoc_pick, bool_decide_eq_false_2; [reflexivity | exact Hk].
Qed.

Lemma getRelevantMovieInfo_object_witness :
  exists relevantInfo,
    getRelevantMovieInfo matrix (boot (service_without_1 VNull))
    = (Normal relevantInfo, boot (service_without_1 VNull)) /\
    assoc "genres" relevantInfo = Some (VArr [VStr "Action"]) /\
    assoc "title" relevantInfo = Some (VStr "The Matrix").
Proof.
  destruct (getRelevantMovieInfo_object
              [("title", VStr "The Matrix"); ("genres", VArr [VObj [("name", VStr "Action")]]);
               ("poster_path", VStr "/poster.jpg"); ("release_date", VStr "1999-03-30");
               ("imdb_id", VStr "tt0133093")]
              (boot (service_without_1 VNull)) eq_refl) as (info & H1 & H2 & H3 & _).
  exists info. split; [exact H1|]. split; [exact H2|].
  apply (H3 "title"). left.
Defined.

(** [getRelevantMovieInfo] throws a [TypeError] for a movie that is [null]
    or [undefined], and for a movie whose [genres] holds a [null] or an
    [undefined] after genres that can be read. *)
Theorem getRelevantMovieInfo_throws (movieInfo : value) (s : state) :
  (defined movieInfo = false ->
   exists e, get movieInfo "genres" = inr e /\
             getRelevantMovieInfo movieInfo s = (Throw e, s)) /\
  (forall fields before genre after,
     movieInfo = VObj fields ->
     elements_of (default VUndefined (assoc "genres" fields)) = before ++ genre :: after ->
     forallb defined before = true -> defined genre = false ->
     exists e, get genre "name" = inr e /\
               getRelevantMovieInfo movieInfo s = (Throw e, s)).
Proof.
  split.
  - intros H. destruct movieInfo; try discriminate H; eexists; split; reflexivity.
  - intros fields before genre after -> Hel Hb Hg.
    unfold getRelevantMovieInfo.
    cbv [mbind M_bind read get mret M_ret]. rewrite Hel.
    assert (Hthrow : exists e, get genre "name" = inr e /\
                               genre_names (before ++ genre :: after) s = (Throw e, s)).
    { clear Hel. induction before as [|b before IH].
      - destruct genre; try discriminate Hg; eexists; split; reflexivity.
      - simpl in Hb. apply andb_prop in Hb as [Hb1 Hb2].
        destruct (IH Hb2) as (e & He & Hrun). exists e. split; [exact He|].
        simpl. cbv [mbind M_bind].
        destruct b; try discriminate Hb1; simpl; rewrite Hrun; reflexivity. }
    destruct Hthrow as (e & He & Hrun). exists e. split; [exact He|].
    rewrite Hrun. reflexivity.
Qed.

Lemma getRelevantMovieInfo_throws_witness :
  (exists e, getRelevantMovieInfo VNull (boot (service_without_1 VNull))
             = (Throw e, boot (service_without_1 VNull))) /\
  (exists e, getRelevantMovieInfo
               (VObj [("title", VStr "Alien");
                      ("genres", VArr [VObj [("name", VStr "Horror")]; VNull])])
               (boot (service_without_1 VNull))
             = (Throw e, boot (service_without_1 VNull))).
Proof.
  split.
  - destruct (proj1 (getRelevantMovieInfo_throws VNull (boot (service_without_1 VNull)))
                    eq_refl) as (e & _ & H).
    exists e. exact H.
  - destruct (proj2 (getRelevantMovieInfo_throws
                       (VObj [("title", VStr "Alien");
                              ("genres", VArr [VObj [("name", VStr "Horror")]; VNull])])
                       (boot (service_without_1 VNull)))
                    _ [VObj [("name", VStr "Horror")]] VNull [] eq_refl eq_refl eq_refl
                    eq_refl) as (e & _ & H).
    exists e. exact H.
Defined.

(** ** Posts without [tmdb_id] *)

Lemma movie_of_has_no_title (rawMovie : item) : assoc "title" (movie_of rawMovie) = None.
Proof.
  unfold movie_of. rewrite assoc_extend_absent; [reflexivity|].
  apply processWPCategories_other_keys; discriminate.
Qed.

Lemma main_loop_without_tmdb_id (items : list item) (s : state) :
  Forall (fun rawMovie => ~ In "tmdb_id" (map fst (postmeta rawMovie))) items ->
  main_loop (length (movies s)) items s
  = (Normal tt,
     set_trace
       (rev (map (fun rawMovie =>
                    console_log [VStr ("Missing tmdb_id: "
                                       +:+ toDateString (env s) (pubDate rawMovie)
                                       +:+ " undefined")]) items) ++ trace s)
       (set_movies
          (movies s ++
           map (fun rawMovie =>
                  VObj (obj_set "imdb_id" (getMetaValue "imdb_id" (postmeta rawMovie))
                          (movie_of rawMovie))) items) s)).
Proof.
  intros H. revert s. induction H as [|rawMovie items Hx _ IH]; intros s.
  - simpl. rewrite app_nil_r. destruct s; reflexivity.
  - apply (proj2 (getMetaValue_absent "tmdb_id" _)) in Hx.
    pose proof (movie_of_has_no_title rawMovie) as Ht. unfold movie_of in Ht.
    assert (Hm : movie_of rawMovie
                 = extend [("date", VStr (pubDate rawMovie));
                           ("content", VStr (content_encoded rawMovie));
                           ("tmdb_id", VBool false)]
                          (processWPCategories (category rawMovie)))
      by (unfold movie_of; rewrite Hx; reflexivity).
    rewrite Hx in Ht.
    cbn [main_loop]. rewrite Hx. cbv zeta.
    cbv [mbind M_bind modify log emit]. rewrite Ht.
    cbv [movies set_movies set_trace env trace default from_option id].
    destruct s as [e g m ps al mt pe tr cr].
    cbv [movies set_movies set_trace env trace].
    replace (<[length m := _]> (m ++ [_])) with
      (m ++ [VObj (obj_set "imdb_id" (getMetaValue "imdb_id" (postmeta rawMovie))
                     (movie_of rawMovie))]).
    2:{ rewrite insert_app_r_alt by lia. rewrite Nat.sub_diag, Hm. reflexivity. }
    match goal with
    | |- main_loop _ _ ?St = _ =>
        replace (Datatypes.S (length m)) with (length (movies St))
          by (cbv [movies]; rewrite length_app; simpl; lia);
        rewrite (IH St)
    end.
    cbv [movies set_movies set_trace env trace].
    rewrite <- !app_assoc. simpl. rewrite <- !app_assoc. reflexivity.
Qed.

(** A batch in which no post has a [tmdb_id]: the driver starts no
    operation and creates no promise; it logs one line for each post, which
    always ends in [undefined] (the [title] it prints is never set), and
    gives each post the [imdb_id] of its metadata, or [false]. *)
Theorem main_without_tmdb_id (items : list item) (w : world) :
  Forall (fun rawMovie => ~ In "tmdb_id" (map fst (postmeta rawMovie))) items ->
  let r := main items (boot w) in
  fst r = Normal tt /\
  pending (snd r) = [] /\ microtasks (snd r) = [] /\ promises (snd r) = [] /\
  idle (snd r) = true /\
  history (snd r)
  = map (fun rawMovie =>
           console_log [VStr ("Missing tmdb_id: " +:+ toDateString w (pubDate rawMovie)
                              +:+ " undefined")]) items /\
  movies (snd r)
  = map (fun rawMovie =>
           VObj (obj_set "imdb_id" (getMetaValue "imdb_id" (postmeta rawMovie))
                   (movie_of rawMovie))) items.
Proof.
  intros H r. subst r. unfold main.
  change (main_loop 0 items (boot w))
    with (main_loop (length (movies (boot w))) items (boot w)).
  rewrite (main_loop_without_tmdb_id items (boot w) H).
  repeat split.
  unfold history. simpl. rewrite app_nil_r. apply rev_involutive.
Qed.

Lemma main_without_tmdb_id_witness :
  let items := [Item "Mon, 01 Jan 2018 10:00:00 +0000" "<p>first</p>" ["home"; "3d"]
                     [("imdb_id", "tt0133093")]] in
  let w := service_without_1 VNull in
  pending (snd (main items (boot w))) = [] /\
  history (snd (main items (boot w)))
  = [console_log [VStr "Missing tmdb_id: Mon, 01 Jan 2018 10:00:00 +0000 undefined"]].
Proof.
  intros items w.
  assert (H : Forall (fun rawMovie => ~ In "tmdb_id" (map fst (postmeta rawMovie))) items).
  { repeat constructor. simpl. intros [H|[]]. discriminate H. }
  destruct (main_without_tmdb_id items w H) as (_ & H1 & _ & _ & _ & H2 & _).
  split; [exact H1 | exact H2].
Defined.

(** ** The time to live *)

Lemma isValidCacheFileDate_effect (fileDate : Z) (ttl : option Z) (s : state) :
  isValidCacheFileDate fileDate ttl s
  = if (clock (env s) <=? fileDate + effective_ttl ttl)%Z then (Normal true, s)
    else (Normal false,
          set_trace (console_log [VStr "Cache file is too old."] :: trace s) s).
Proof.
  unfold isValidCacheFileDate, isBefore, oldestValidDate.
  cbv [mbind M_bind Date_now].
  destruct (Z.ltb_spec fileDate (clock (env s) - effective_ttl ttl));
    destruct (Z.leb_spec (clock (env s)) (fileDate + effective_ttl ttl));
    try lia; reflexivity.
Qed.

(** [isValidCacheFileDate] accepts a date exactly when it is not older than
    the time to live, and logs when it refuses; a time to live of [0] is
    taken for none given, so a file one millisecond old is accepted with
    it. *)
Theorem isValidCacheFileDate_zero_ttl (fileDate : Z) (ttl : Z) (s : state) :
  isValidCacheFileDate fileDate (Some 0) s = isValidCacheFileDate fileDate None s /\
  isValidCacheFileDate (clock (env s) - 1) (Some 0) s = (Normal true, s) /\
  (ttl <> 0 ->
   isValidCacheFileDate fileDate (Some ttl) s
   = if (clock (env s) <=? fileDate + ttl)%Z then (Normal true, s)
     else (Normal false,
           set_trace (console_log [VStr "Cache file is too old."] :: trace s) s)).
Proof.
  split; [reflexivity|]. split.
  - rewrite isValidCacheFileDate_effect.
    change (effective_ttl (Some 0)) with defaultTtl. unfold defaultTtl.
    destruct (Z.leb_spec (clock (env s)) (clock (env s) - 1 + 1000 * 60 * 60 * 24 * 30));
      [reflexivity | lia].
  - intros Hne. rewrite isValidCacheFileDate_effect. unfold effective_ttl.
    apply Z.eqb_neq in Hne. rewrite Hne. reflexivity.
Qed.

Lemma isValidCacheFileDate_zero_ttl_witness :
  isValidCacheFileDate 1000 (Some 2000) (boot (service_without_1 VNull))
  = (Normal false,
     set_trace [console_log [VStr "Cache file is too old."]]
               (boot (service_without_1 VNull))).
Proof.
  refine (proj2 (proj2 (isValidCacheFileDate_zero_ttl 1000 2000
                          (boot (service_without_1 VNull)))) _).
  lia.
Defined.

(** * The cache store: outcomes of the checks *)

(** A text that begins like no JSON value is refused by [JSON.parse]. *)
Lemma JSON_parse_not_json (s : string) : not_json_start s = true -> JSON_parse s = None.
Proof.
  unfold not_json_start, JSON_parse. intros H.
  destruct (2 * String.length s)%nat as [|fuel]; [reflexivity|].
  cbn [parse_value]. destruct (skip_ws s) as [|c r]; [reflexivity|].
  apply negb_true_iff in H.
  apply orb_false_iff in H as [H Hd]. apply orb_false_iff in H as [H Hm].
  apply orb_false_iff in H as [H Hb]. apply orb_false_iff in H as [H Ha].
  apply orb_false_iff in H as [H Hq]. apply orb_false_iff in H as [H Hf].
  apply orb_false_iff in H as [Hn Ht].
  rewrite Hn, Ht, Hf, Hq, Ha, Hb.
  unfold parse_number. rewrite Hm.
  destruct (digit_of c) eqn:Hdig; [discriminate Hd|].
  assert (H0 : is_char c "0" = false).
  { destruct (is_char c "0") eqn:E; [|reflexivity].
    apply Ascii.eqb_eq in E. subst c. discriminate Hdig. }
  unfold parse_int. rewrite H0. cbn [parse_digits]. rewrite Hdig. reflexivity.
Qed.

(** [validateCacheFileContents] rejects with the error of [fs.readFile]
    when the file is missing and with a [SyntaxError] when the contents
    begin like no JSON value (an empty file, the text [undefined]); it
    fulfils with the parsed value when they parse.  It never throws and
    never touches the files. *)
Theorem validateCacheFileContents_outcomes (w : world) (filePath : string)
    (dt : N) (i : nat) :
  let s := run [(dt, i)] (snd (validateCacheFileContents filePath (boot w))) in
  crashed s = None /\ idle s = true /\ files (env s) = files w /\
  (files w !! filePath = None ->
   promise_state s 0%nat = Some (Settled (Rejected (ENOENT filePath)))) /\
  (forall f parsedContents,
     files w !! filePath = Some f -> JSON_parse (contents f) = Some parsedContents ->
     promise_state s 0%nat = Some (Settled (Fulfilled parsedContents))) /\
  (forall f,
     files w !! filePath = Some f -> not_json_start (contents f) = true ->
     promise_state s 0%nat = Some (Settled (Rejected SyntaxError))) /\
  not_json_start "" = true /\ not_json_start "undefined" = true.
Proof.
  intros s. subst s.
  assert (Hrun : forall r,
            lookup_file (files w) filePath = r ->
            let s := run [(dt, i)] (snd (validateCacheFileContents filePath (boot w))) in
            crashed s = None /\ idle s = true /\ files (env s) = files w /\
            promise_state s 0%nat
            = Some (Settled match r with
                            | None => Rejected (ENOENT filePath)
                            | Some f => match JSON_parse (contents f) with
                                        | Some parsedContents => Fulfilled parsedContents
                                        | None => Rejected SyntaxError
                                        end
                            end)).
  { intros r Hr s. subst s. unfold_world w.
    rewrite run_cons. cbv [run]. machine. pick_cases. machine_at.
    rewrite Hr. destruct r as [[c T]|]; machine_at;
      [destruct (JSON_parse c)|]; machine_at; repeat split. }
  destruct (Hrun _ eq_refl) as (H1 & H2 & H3 & H4).
  split; [exact H1|]. split; [exact H2|]. split; [exact H3|].
  split; [|split; [|split; [|split; reflexivity]]].
  - intros Hf. destruct (Hrun None Hf) as (_ & _ & _ & H). exact H.
  - intros f v Hf Hv. destruct (Hrun (Some f) Hf) as (_ & _ & _ & H).
    rewrite Hv in H. exact H.
  - intros f Hf Hv. destruct (Hrun (Some f) Hf) as (_ & _ & _ & H).
    rewrite (JSON_parse_not_json _ Hv) in H. exact H.
Qed.

Lemma validateCacheFileContents_outcomes_witness :
  let w := World {[ "k" := File "undefined" 1000 ]} 5000 (fun _ => false)
                 (fun _ => (VNull, VNull)) (VNull, VNull)
                 (fun _ => HttpError VNull) (fun d => d) in
  promise_state (run [(1%N, 0%nat)] (snd (validateCacheFileContents "k" (boot w)))) 0%nat
  = Some (Settled (Rejected SyntaxError)) /\
  promise_state (run [(1%N, 0%nat)] (snd (validateCacheFileContents "j" (boot w)))) 0%nat
  = Some (Settled (Rejected (ENOENT "j"))).
Proof.
  intros w. split.
  - destruct (validateCacheFileContents_outcomes w "k" 1%N 0%nat)
      as (_ & _ & _ & _ & _ & H & _).
    exact (H (File "undefined" 1000) eq_refl eq_refl).
  - destruct (validateCacheFileContents_outcomes w "j" 1%N 0%nat)
      as (_ & _ & _ & H & _).
    exact (H eq_refl).
Defined.

(** [validateCacheFile] on a missing file rejects with the error the file
    system gave to one of its two operations; on a file that stays fresh it
    fulfils with the pair of the two results when the contents parse and
    rejects with a [SyntaxError] when they begin like no JSON value; on a
    stale file it rejects, with [null] or with the [SyntaxError].  It never
    throws. *)
Theorem validateCacheFile_outcomes (w : world) (filePath : string)
    (sched : list (N * nat)) :
  (10 <= length sched)%nat ->
  let s := run sched (snd (validateCacheFile filePath (boot w))) in
  fst (validateCacheFile filePath (boot w)) = Normal 2%nat /\
  (files w !! filePath = None ->
   idle s = true /\ crashed s = None /\
   exists op err,
     promise_state s 2%nat = Some (Settled (Rejected err)) /\
     (op = fs_stat filePath \/ op = fs_readFile filePath) /\
     In (finished op (io_error err)) (trace s)) /\
  (forall f, files w !! filePath = Some f ->
     (clock w + total_wait sched <= mtime f + defaultTtl)%Z ->
     idle s = true /\ crashed s = None /\
     (forall parsedContents, JSON_parse (contents f) = Some parsedContents ->
        promise_state s 2%nat
        = Some (Settled (Fulfilled (VArr [fresh_mark; parsedContents])))) /\
     (not_json_start (contents f) = true ->
      promise_state s 2%nat = Some (Settled (Rejected SyntaxError)))) /\
  (forall f, files w !! filePath = Some f ->
     (mtime f + defaultTtl < clock w)%Z ->
     idle s = true /\ crashed s = None /\
     exists err, promise_state s 2%nat = Some (Settled (Rejected err)) /\
                 (err = VNull \/ err = SyntaxError)).
Proof.
  intros Hlen s. subst s. split; [reflexivity|].
  split; [|split].
  - intros Hf. unfold_world w.
    set_post. machine.
    explore 20%nat ltac:(stop_short Hlen)
      ltac:(subst Post; cbv beta; split; [reflexivity|]; split; [reflexivity|];
            eexists _, _; split; [reflexivity|];
            first [ split; [left; reflexivity | in_list]
                  | split; [right; reflexivity | in_list] ]).
  - intros [c T] Hf Hfresh. unfold_world w. cbv [mtime contents] in *.
    assert (Hnone : not_json_start c = true -> JSON_parse c = None)
      by apply JSON_parse_not_json.
    set_post. machine.
    explore 20%nat ltac:(stop_short Hlen)
      ltac:(subst Post; cbv beta; split; [reflexivity|]; split; [reflexivity|];
            split;
            [ let v := fresh in let Hv := fresh in
              intros v Hv; first [ discriminate Hv | injection Hv as <-; reflexivity ]
            | let Hv := fresh in
              intros Hv; first [ reflexivity | specialize (Hnone Hv); discriminate Hnone ] ]).
  - intros [c T] Hf Hstale. unfold_world w. cbv [mtime contents] in *.
    set_post. machine.
    explore 20%nat ltac:(stop_short Hlen)
      ltac:(subst Post; cbv beta; split; [reflexivity|]; split; [reflexivity|];
            eexists; split; [reflexivity|];
            first [ left; reflexivity | right; reflexivity ]).
Qed.

Lemma validateCacheFile_outcomes_witness :
  let w := World {[ "k" := File "[1,2]" 1000 ]} 5000 (fun _ => false)
                 (fun _ => (VNull, VNull)) (VNull, VNull)
                 (fun _ => HttpError VNull) (fun d => d) in
  promise_state (run (replicate 10 (1%N, 1%nat)) (snd (validateCacheFile "k" (boot w)))) 2%nat
  = Some (Settled (Fulfilled (VArr [fresh_mark; VArr [VNum 1; VNum 2]]))) /\
  idle (run (replicate 10 (1%N, 1%nat)) (snd (validateCacheFile "j" (boot w)))) = true.
Proof.
  intros w. split.
  - assert (Hlen : (10 <= length (replicate 10 (1%N, 1%nat)))%nat) by (simpl; lia).
    destruct (validateCacheFile_outcomes w "k" (replicate 10 (1%N, 1%nat)) Hlen)
      as (_ & _ & H & _).
    destruct (H (File "[1,2]" 1000) eq_refl) as (_ & _ & H' & _).
    + vm_compute. discriminate.
    + exact (H' _ eq_refl).
  - assert (Hlen : (10 <= length (replicate 10 (1%N, 1%nat)))%nat) by (simpl; lia).
    destruct (validateCacheFile_outcomes w "j" (replicate 10 (1%N, 1%nat)) Hlen)
      as (_ & H & _).
    destruct (H eq_refl) as (H' & _). exact H'.
Defined.

(** On a stale file with unparsable contents the reason of the rejection
    is that of the operation that completes first: [null] when it is
    [fs.stat], the [SyntaxError] when it is [fs.readFile]. *)
Theorem validateCacheFile_first_failure_wins (w : world) (filePath : string) (f : file)
    (dt : N) (sched : list (N * nat)) :
  files w !! filePath = Some f ->
  (mtime f + defaultTtl < clock w)%Z ->
  not_json_start (contents f) = true ->
  (10 <= length sched)%nat ->
  promise_state (run ((dt, 0%nat) :: sched) (snd (validateCacheFile filePath (boot w)))) 2%nat
  = Some (Settled (Rejected VNull)) /\
  promise_state (run ((dt, 1%nat) :: sched) (snd (validateCacheFile filePath (boot w)))) 2%nat
  = Some (Settled (Rejected SyntaxError)).
Proof.
  intros Hf Hstale Hparse Hlen. destruct f as [c T]. unfold_world w.
  cbv [mtime contents] in *. apply JSON_parse_not_json in Hparse. split.
  - set_post. machine. rewrite run_cons. machine.
    change (Nat.modulo 0 2) with 0%nat. machine_at. settle_stuck.
    explore 20%nat ltac:(stop_short Hlen) ltac:(subst Post; cbv beta; reflexivity).
  - set_post. machine. rewrite run_cons. machine.
    change (Nat.modulo 1 2) with 1%nat. machine_at. settle_stuck.
    explore 20%nat ltac:(stop_short Hlen) ltac:(subst Post; cbv beta; reflexivity).
Qed.

Lemma validateCacheFile_first_failure_wins_witness :
  let w := World {[ "k" := File "<html>" 1000 ]} 2592002000 (fun _ => false)
                 (fun _ => (VNull, VNull)) (VNull, VNull)
                 (fun _ => HttpError VNull) (fun d => d) in
  promise_state (run ((1%N, 0%nat) :: replicate 10 (1%N, 0%nat))
                     (snd (validateCacheFile "k" (boot w)))) 2%nat
  = Some (Settled (Rejected VNull)) /\
  promise_state (run ((1%N, 1%nat) :: replicate 10 (1%N, 0%nat))
                     (snd (validateCacheFile "k" (boot w)))) 2%nat
  = Some (Settled (Rejected SyntaxError)).
Proof.
  intros w.
  apply (validateCacheFile_first_failure_wins w "k" (File "<html>" 1000) 1%N
           (replicate 10 (1%N, 0%nat)) eq_refl).
  - vm_compute. reflexivity.
  - reflexivity.
  - simpl. lia.
Defined.

(** * The configuration *)

(** [saveAPIConfiguration] writes the JSON text of the configuration to the
    configuration file and fulfils its promise with the path; when the write
    fails it rejects with the error and the files are as they were. *)
Theorem saveAPIConfiguration_outcomes (w : world) (configData : value)
    (dt : N) (i : nat) :
  is_json configData = true ->
  let s := run [(dt, i)] (snd (saveAPIConfiguration configData (boot w))) in
  idle s = true /\ crashed s = None /\
  (unwritable w configCacheFilePath = false ->
   promise_state s 0%nat
   = Some (Settled (Fulfilled (VObj [("saveAPIConfiguration", VBool true);
                                     ("filePath", VStr configCacheFilePath)]))) /\
   files (env s)
   = <[configCacheFilePath := File (ser configData) (clock w + Z.of_N dt)]> (files w)) /\
  (unwritable w configCacheFilePath = true ->
   promise_state s 0%nat = Some (Settled (Rejected (EACCES configCacheFilePath))) /\
   files (env s) = files w).
Proof.
  intros HV s. subst s. unfold_world w.
  rewrite run_cons. cbv [run]. machine. pick_cases. machine_at.
  rewrite (JSON_stringify_json configData HV).
  destruct (unw configCacheFilePath); machine_at;
    (split; [reflexivity|]; split; [reflexivity|]);
    split; intros Hu; try discriminate Hu; split; reflexivity.
Qed.

Lemma saveAPIConfiguration_outcomes_witness :
  let config := VObj [("images", VObj [("base_url", VStr "http://image.tmdb.org/t/p/")])] in
  let w := World ∅ 5000 (fun _ => false) (fun _ => (VNull, VNull)) (VNull, VNull)
                 (fun _ => HttpError VNull) (fun d => d) in
  files (env (run [(3%N, 0%nat)] (snd (saveAPIConfiguration config (boot w)))))
  = {[ configCacheFilePath := File (ser config) 5003 ]}.
Proof.
  intros config w.
  destruct (saveAPIConfiguration_outcomes w config 3%N 0%nat eq_refl) as (_ & _ & H & _).
  destruct (H eq_refl) as [_ H']. exact H'.
Defined.

(** When the configuration file is there, stays fresh and parses,
    [getAPIConfiguration] fulfils its promise with the parsed value,
    whatever it is, after the two file operations: the service is not
    asked and nothing is written. *)
Theorem getAPIConfiguration_cache_hit (w : world) (f : file) (config : value)
    (sched : list (N * nat)) :
  files w !! configCacheFilePath = Some f ->
  JSON_parse (contents f) = Some config ->
  (clock w + total_wait sched <= mtime f + defaultTtl)%Z ->
  (20 <= length sched)%nat ->
  let s := run sched (snd (getAPIConfiguration (boot w))) in
  idle s = true /\ crashed s = None /\
  promise_state s 0%nat = Some (Settled (Fulfilled config)) /\
  filter is_io (history s)
  = [started (fs_stat configCacheFilePath); started (fs_readFile configCacheFilePath)] /\
  filter is_console (history s)
  = [console_log [VStr "Configuration data found in cache."]] /\
  files (env s) = files w.
Proof.
  intros Hf Hparse Hfresh Hlen s. subst s. destruct f as [c T]. unfold_world w.
  cbv [mtime contents] in *.
  set_post. machine.
  explore 30%nat ltac:(stop_short Hlen) ltac:(subst Post; cbv beta; repeat split).
Qed.

Lemma getAPIConfiguration_cache_hit_witness :
  let w := World {[ configCacheFilePath := File "null" 1000 ]} 5000 (fun _ => false)
                 (fun _ => (VNull, VNull)) (VNull, VNull)
                 (fun _ => HttpError VNull) (fun d => d) in
  promise_state (run (replicate 20 (1%N, 0%nat)) (snd (getAPIConfiguration (boot w)))) 0%nat
  = Some (Settled (Fulfilled VNull)).
Proof.
  intros w.
  destruct (getAPIConfiguration_cache_hit w (File "null" 1000) VNull
              (replicate 20 (1%N, 0%nat)) eq_refl eq_refl) as (_ & _ & H & _).
  - vm_compute. discriminate.
  - simpl. lia.
  - exact H.
Defined.

(** With a configuration in the cache [getTMDBImagesBaseUrl] asks the
    service nothing.  When [images.base_url] can be read the promise is
    fulfilled with it and the singleton holds it; when the read throws
    (a cached [null], or a configuration without [images]) the promise is
    rejected with [undefined] and the singleton stays unset. *)
Theorem getTMDBImagesBaseUrl_from_cache (w : world) (f : file) (config : value)
    (sched : list (N * nat)) :
  files w !! configCacheFilePath = Some f ->
  JSON_parse (contents f) = Some config ->
  (clock w + total_wait sched <= mtime f + defaultTtl)%Z ->
  (30 <= length sched)%nat ->
  let s := run sched (snd (getTMDBImagesBaseUrl (boot w))) in
  idle s = true /\ crashed s = None /\
  filter is_network (history s) = [] /\
  (forall images base_url,
     get config "images" = inl images -> get images "base_url" = inl base_url ->
     promise_state s 0%nat = Some (Settled (Fulfilled base_url)) /\
     tmdbImagesBaseUrl s = base_url) /\
  ((exists e, get config "images" = inr e) \/
   (exists images e, get config "images" = inl images /\ get images "base_url" = inr e) ->
   promise_state s 0%nat = Some (Settled (Rejected VUndefined)) /\
   tmdbImagesBaseUrl s = VUndefined).
Proof.
  intros Hf Hparse Hfresh Hlen s. subst s. destruct f as [c T]. unfold_world w.
  cbv [mtime contents] in *.
  set_post. machine. settle_stuck.
  explore 40%nat ltac:(stop_short Hlen)
    ltac:(subst Post; cbv beta;
          split; [reflexivity|]; split; [reflexivity|]; split; [reflexivity|];
          split;
          [ intros img url Himg Hurl;
            first [ discriminate Himg
                  | injection Himg as <-;
                    first [ discriminate Hurl
                          | revert Hurl;
                            match goal with
                            | H : get _ "base_url" = _ |- _ => rewrite H
                            end;
                            intros Hurl;
                            first [ discriminate Hurl
                                  | injection Hurl as <-; split; reflexivity ] ] ]
          | intros [[unread Himg]|(img & unread & Himg & Hurl)];
            first [ discriminate Himg
                  | split; reflexivity
                  | injection Himg as <-;
                    revert Hurl;
                    match goal with
                    | H : get _ "base_url" = _ |- _ => rewrite H
                    end;
                    intros Hurl;
                    first [ discriminate Hurl | split; reflexivity ] ] ]).
Qed.

Lemma getTMDBImagesBaseUrl_from_cache_witness :
  let w := World {[ configCacheFilePath
                    := File (ser (VObj [("images", VObj [("base_url", VStr "http://image.tmdb.org/t/p/")])])) 1000 ]}
                 5000 (fun _ => false) (fun _ => (VNull, VNull)) (VNull, VNull)
                 (fun _ => HttpError VNull) (fun d => d) in
  let s := run (replicate 30 (1%N, 0%nat)) (snd (getTMDBImagesBaseUrl (boot w))) in
  promise_state s 0%nat = Some (Settled (Fulfilled (VStr "http://image.tmdb.org/t/p/"))) /\
  tmdbImagesBaseUrl s = VStr "http://image.tmdb.org/t/p/".
Proof.
  intros w s.
  destruct (getTMDBImagesBaseUrl_from_cache w
              (File (ser (VObj [("images", VObj [("base_url", VStr "http://image.tmdb.org/t/p/")])])) 1000)
              (VObj [("images", VObj [("base_url", VStr "http://image.tmdb.org/t/p/")])])
              (replicate 30 (1%N, 0%nat)) eq_refl) as (_ & _ & _ & H & _).
  - vm_compute. reflexivity.
  - vm_compute. discriminate.
  - simpl. lia.
  - apply (H (VObj [("base_url", VStr "http://image.tmdb.org/t/p/")])
             (VStr "http://image.tmdb.org/t/p/")); reflexivity.
Defined.

(** [getAPIConfiguration] asks the service when the configuration file is
    missing, when it is stale and when its contents begin like no JSON
    value; its promise is then settled by the answer: fulfilled with the
    data when the error is [null], rejected with the error otherwise.  The
    callback of the service never throws. *)
Theorem getAPIConfiguration_cache_miss (w : world) (err data : value)
    (sched : list (N * nat)) :
  let s := run sched (snd (getAPIConfiguration (boot w))) in
  configuration_response w = (err, data) ->
  (40 <= length sched)%nat ->
  (files w !! configCacheFilePath = None \/
   (exists f, files w !! configCacheFilePath = Some f /\
              ((mtime f + defaultTtl < clock w)%Z \/ not_json_start (contents f) = true))) ->
  idle s = true /\ crashed s = None /\
  In (started MovieDB_configuration) (trace s) /\
  promise_state s 0%nat
  = Some (Settled (if isNull err then Fulfilled data else Rejected err)).
Proof.
  intros s Hcfg Hlen Hmiss. subst s. unfold_world w. subst cfg.
  destruct Hmiss as [Hf|([c T] & Hf & [Hstale|Hparse])]; cbv [mtime contents] in *;
    [ | | apply JSON_parse_not_json in Hparse ];
    set_post; machine; settle_stuck;
    explore 50%nat ltac:(stop_short Hlen)
      ltac:(subst Post; cbv beta; split; [reflexivity|]; split; [reflexivity|];
            split; [in_list | reflexivity]).
Qed.

Lemma getAPIConfiguration_cache_miss_witness :
  let config := VObj [("images", VObj [("base_url", VStr "http://image.tmdb.org/t/p/")])] in
  let w := World ∅ 5000 (fun _ => false) (fun _ => (VNull, VNull)) (VNull, config)
                 (fun _ => HttpError VNull) (fun d => d) in
  promise_state (run (replicate 40 (1%N, 0%nat)) (snd (getAPIConfiguration (boot w)))) 0%nat
  = Some (Settled (Fulfilled config)).
Proof.
  intros config w.
  destruct (getAPIConfiguration_cache_miss w VNull config (replicate 40 (1%N, 0%nat)) eq_refl)
    as (_ & _ & _ & H).
  - simpl. lia.
  - left. reflexivity.
  - exact H.
Defined.

(** After a configuration lookup that asked the service, in a process at
    rest: what the service passed as data is in the configuration file,
    whether or not it came with an error. *)
Lemma getAPIConfiguration_after_fetch (w : world) (err data : value)
    (sched : list (N * nat)) :
  let s := run sched (snd (getAPIConfiguration (boot w))) in
  configuration_response w = (err, data) ->
  unwritable w configCacheFilePath = false ->
  idle s = true ->
  In (started MovieDB_configuration) (trace s) ->
  crashed s = None /\
  promise_state s 0%nat
  = Some (Settled (if isNull err then Fulfilled data else Rejected err)) /\
  exists t, files (env s) !! configCacheFilePath
            = Some (File (file_data (JSON_stringify data)) t) /\
            (clock w <= t <= clock (env s))%Z.
Proof.
  intros s. subst s. unfold_world w. intros -> Hw.
  set_post. machine. settle_stuck.
  explore 40%nat
    ltac:(subst Post; not_idle)
    ltac:(subst Post; cbv beta;
          let Hidle := fresh "Hidle" in
          let Hfetch := fresh "Hfetch" in
          intros Hidle Hfetch;
          first
            [ exfalso; not_in Hfetch
            | exfalso; cbv [idle microtasks pending] in Hidle; discriminate Hidle
            | split; [reflexivity|]; split; [reflexivity|];
              cbv beta iota delta [env files clock];
              eexists; split; [apply lookup_file_put_eq | lia] ]).
Qed.

(** A configuration lookup that finds [null] in the cache. *)
Lemma getTMDBImagesBaseUrl_cached_null (w : world) (f : file) (sched : list (N * nat)) :
  files w !! configCacheFilePath = Some f ->
  JSON_parse (contents f) = Some VNull ->
  (clock w + total_wait sched <= mtime f + defaultTtl)%Z ->
  (30 <= length sched)%nat ->
  let s := run sched (snd (getTMDBImagesBaseUrl (boot w))) in
  idle s = true /\
  filter is_network (history s) = [] /\
  promise_state s 0%nat = Some (Settled (Rejected VUndefined)).
Proof.
  intros Hf Hparse Hfresh Hlen s. subst s. destruct f as [c T]. unfold_world w.
  cbv [mtime contents] in *.
  set_post. machine. settle_stuck.
  explore 40%nat ltac:(stop_short Hlen) ltac:(subst Post; cbv beta; repeat split).
Qed.

(** * Errors that reach the cache *)

(** A configuration fetch that fails with [null] data is cached like a good
    one: the lookup is rejected with the error, the configuration file gets
    the text [null], and a process started within the time to live finds
    that file, asks the service nothing and has [getTMDBImagesBaseUrl]
    rejected with [undefined]. *)
Theorem failed_configuration_fetch_is_cached (w : world) (err : value)
    (sched1 sched2 : list (N * nat)) (d : N) :
  configuration_response w = (err, VNull) ->
  isNull err = false ->
  unwritable w configCacheFilePath = false ->
  let s1 := run sched1 (snd (getAPIConfiguration (boot w))) in
  idle s1 = true ->
  In (started MovieDB_configuration) (trace s1) ->
  let w2 := set_clock (clock (env s1) + Z.of_N d) (env s1) in
  let s2 := run sched2 (snd (getTMDBImagesBaseUrl (boot w2))) in
  (30 <= length sched2)%nat ->
  (clock w2 + total_wait sched2 <= clock w + defaultTtl)%Z ->
  promise_state s1 0%nat = Some (Settled (Rejected err)) /\
  (exists t, files (env s1) !! configCacheFilePath = Some (File "null" t)) /\
  idle s2 = true /\
  filter is_network (history s2) = [] /\
  promise_state s2 0%nat = Some (Settled (Rejected VUndefined)).
Proof.
  intros Hcfg Herr Hw s1 Hidle Hfetch w2 s2 Hlen Hfresh.
  destruct (getAPIConfiguration_after_fetch w err VNull sched1 Hcfg Hw Hidle Hfetch)
    as (_ & Hp & t & Hfile & Hlo & _).
  rewrite Herr in Hp.
  split; [exact Hp|]. split; [exists t; exact Hfile|].
  pose proof (getTMDBImagesBaseUrl_cached_null w2 (File "null" t) sched2 Hfile eq_refl) as K.
  assert (K2 : (clock w2 + total_wait sched2 <= mtime (File "null" t) + defaultTtl)%Z)
    by (cbv [mtime]; lia).
  exact (K K2 Hlen).
Qed.

Lemma failed_configuration_fetch_is_cached_witness :
  let err := VError "Error" "ETIMEDOUT" in
  let w := World ∅ 5000 (fun _ => false) (fun _ => (VNull, VNull)) (err, VNull)
                 (fun _ => HttpError VNull) (fun d => d) in
  let s1 := run (replicate 30 (1%N, 0%nat)) (snd (getAPIConfiguration (boot w))) in
  let w2 := set_clock (clock (env s1) + Z.of_N 86400000) (env s1) in
  let s2 := run (replicate 30 (1%N, 0%nat)) (snd (getTMDBImagesBaseUrl (boot w2))) in
  In (started MovieDB_configuration) (trace s1) /\
  filter is_network (history s2) = [] /\
  promise_state s2 0%nat = Some (Settled (Rejected VUndefined)).
Proof.
  intros err w s1 w2 s2.
  assert (Hfetch : In (started MovieDB_configuration) (trace s1))
    by (vm_compute; repeat first [left; reflexivity | right]).
  split; [exact Hfetch|].
  destruct (failed_configuration_fetch_is_cached w err (replicate 30 (1%N, 0%nat))
              (replicate 30 (1%N, 0%nat)) 86400000%N eq_refl eq_refl eq_refl)
    as (_ & _ & _ & H1 & H2).
  - vm_compute. reflexivity.
  - exact Hfetch.
  - simpl. lia.
  - vm_compute. discriminate.
  - split; [exact H1 | exact H2].
Defined.

(** * Posters *)

(** A poster that is not in the cache (missing, or stale), in a process
    that knows the base URL: exactly one request is made, to the base URL
    followed by the size and the poster name.  A response with status 200
    is written to the poster path and the promise is fulfilled with that
    path; when the path cannot be written the error of the stream is thrown
    outside any promise and ends the process.  Another status rejects the
    promise with the response and an error of the request rejects it with
    the error, after logging it; in both cases no file is written. *)
Theorem getMoviePoster_download (w : world) (posterFileName base_url : string)
    (size : option string) (sched : list (N * nat)) :
  let sz := default "original" size in
  let destPath := getMoviePosterCachePath posterFileName sz in
  let url := (base_url +:+ sz) +:+ posterFileName in
  let s := run sched (snd (getMoviePoster posterFileName size
                             (set_tmdbImagesBaseUrl (VStr base_url) (boot w)))) in
  (forall f, files w !! destPath = Some f -> (mtime f + defaultTtl < clock w)%Z) ->
  (40 <= length sched)%nat ->
  filter is_network (history s) = [started (request url)] /\
  match request_response w url with
  | HttpResponse statusCode body =>
      if (statusCode =? 200)%Z then
        if unwritable w destPath then
          crashed s = Some (EACCES destPath) /\ files (env s) = files w /\
          promise_state s 0%nat = Some (Pending [])
        else
          crashed s = None /\ idle s = true /\
          promise_state s 0%nat = Some (Settled (Fulfilled (VStr destPath))) /\
          exists t, files (env s) = <[destPath := File body t]> (files w)
      else
        crashed s = None /\ idle s = true /\ files (env s) = files w /\
        promise_state s 0%nat
        = Some (Settled (Rejected (VObj [("statusCode", VNum statusCode)])))
  | HttpError err =>
      crashed s = None /\ idle s = true /\ files (env s) = files w /\
      promise_state s 0%nat = Some (Settled (Rejected err)) /\
      In (console_log [VStr "request:error => "; err]) (trace s)
  end.
Proof.
  intros sz destPath url s Hmiss Hlen. subst s url destPath.
  replace (getMoviePoster posterFileName size)
    with (getMoviePoster posterFileName (Some sz))
    by (subst sz; destruct size; reflexivity).
  generalize dependent sz. intros sz Hmiss.
  unfold_world w.
  destruct (lookup_file fs (getMoviePosterCachePath posterFileName sz))
    as [[c T]|] eqn:Hf;
    [ specialize (Hmiss _ eq_refl); cbv [mtime] in Hmiss | clear Hmiss ];
    set_post; cbv [set_tmdbImagesBaseUrl]; machine; settle_stuck;
    explore 50%nat ltac:(stop_short Hlen)
      ltac:(subst Post; cbv beta;
            repeat match goal with
                   | H : req _ = _ |- _ =>
                       progress change (ToString (VStr base_url)) with base_url in H
                   end;
            repeat match goal with
                   | H : ?X = _ |- context [match ?X with _ => _ end] => rewrite H
                   end;
            split; [reflexivity|];
            repeat first [ reflexivity | split | eexists | in_list ]).
Qed.

Lemma getMoviePoster_download_witness :
  let w := World ∅ 5000 (fun _ => false) (fun _ => (VNull, VNull)) (VNull, VNull)
                 (fun _ => HttpResponse 200 "JPEG") (fun d => d) in
  let s := run (replicate 40 (1%N, 0%nat))
               (snd (getMoviePoster "/poster.jpg" None
                       (set_tmdbImagesBaseUrl (VStr "http://image.tmdb.org/t/p/") (boot w)))) in
  filter is_network (history s)
  = [started (request "http://image.tmdb.org/t/p/original/poster.jpg")] /\
  promise_state s 0%nat
  = Some (Settled (Fulfilled (VStr "./tmdb_cache/posters/original/poster.jpg"))).
Proof.
  intros w s.
  destruct (getMoviePoster_download w "/poster.jpg" "http://image.tmdb.org/t/p/" None
              (replicate 40 (1%N, 0%nat))) as [H1 H2].
  - intros f Hf. cbv [files w] in Hf. rewrite lookup_empty in Hf. discriminate Hf.
  - simpl. lia.
  - split; [exact H1|].
    destruct H2 as (_ & _ & H2 & _). exact H2.
Defined.

(** * The metadata resolver: when the service is asked *)

(** [getMovieInfo] asks the service when the cache file is missing, when it
    is stale, when its contents begin like no JSON value and when they parse
    to [null]
    (the read of [title] throws in the [then] callback and the [catch]
    callback runs); with a file that stays fresh and holds any other JSON
    value it fulfils its promise with that value, asks nothing and writes
    nothing. *)
Theorem getMovieInfo_cache_policy (w : world) (tmdb_id : string)
    (sched : list (N * nat)) :
  let cacheFilePath := getInfoCacheFilePathFromId tmdb_id in
  let s := run sched (snd (getMovieInfo tmdb_id (boot w))) in
  (30 <= length sched)%nat ->
  (files w !! cacheFilePath = None ->
   In (started (MovieDB_movieInfo tmdb_id)) (trace s)) /\
  (forall f, files w !! cacheFilePath = Some f ->
     (mtime f + defaultTtl < clock w)%Z ->
     In (started (MovieDB_movieInfo tmdb_id)) (trace s)) /\
  (forall f, files w !! cacheFilePath = Some f ->
     not_json_start (contents f) = true \/ JSON_parse (contents f) = Some VNull ->
     In (started (MovieDB_movieInfo tmdb_id)) (trace s)) /\
  (forall f cached, files w !! cacheFilePath = Some f ->
     (clock w + total_wait sched <= mtime f + defaultTtl)%Z ->
     JSON_parse (contents f) = Some cached -> isNull cached = false ->
     isUndefined cached = false ->
     idle s = true /\ crashed s = None /\
     promise_state s 0%nat = Some (Settled (Fulfilled cached)) /\
     filter is_network (history s) = [] /\ files (env s) = files w).
Proof.
  intros cacheFilePath s Hlen. subst s cacheFilePath.
  split; [|split; [|split]].
  - intros Hf. unfold_world w.
    set_post. machine. settle_stuck.
    explore 40%nat ltac:(stop_short Hlen) ltac:(subst Post; cbv beta; in_list).
  - intros [c T] Hf Hstale. unfold_world w. cbv [mtime] in Hstale.
    set_post. machine. settle_stuck.
    explore 40%nat ltac:(stop_short Hlen) ltac:(subst Post; cbv beta; in_list).
  - intros [c T] Hf Hparse. unfold_world w. cbv [contents] in Hparse.
    destruct Hparse as [Hparse|Hparse]; [apply JSON_parse_not_json in Hparse|];
      set_post; machine; settle_stuck;
      explore 40%nat ltac:(stop_short Hlen) ltac:(subst Post; cbv beta; in_list).
  - intros [c T] cached Hf Hfresh Hparse Hnull Hundef. unfold_world w.
    cbv [mtime contents] in *.
    destruct (get_defined cached "title" Hnull Hundef) as [title Hget].
    set_post. machine. settle_stuck.
    explore 40%nat ltac:(stop_short Hlen) ltac:(subst Post; cbv beta; repeat split).
Qed.

Lemma getMovieInfo_cache_policy_witness :
  let w := World {[ getInfoCacheFilePathFromId "603" := File "{}" 1000 ]} 5000
                 (fun _ => false) (fun _ => (VNull, VNull)) (VNull, VNull)
                 (fun _ => HttpError VNull) (fun d => d) in
  In (started (MovieDB_movieInfo "604"))
     (trace (run (replicate 30 (1%N, 0%nat)) (snd (getMovieInfo "604" (boot w))))) /\
  promise_state (run (replicate 30 (1%N, 0%nat)) (snd (getMovieInfo "603" (boot w)))) 0%nat
  = Some (Settled (Fulfilled (VObj []))).
Proof.
  intros w.
  assert (Hlen : (30 <= length (replicate 30 (1%N, 0%nat)))%nat) by (simpl; lia).
  split.
  - apply (proj1 (getMovieInfo_cache_policy w "604" (replicate 30 (1%N, 0%nat)) Hlen)).
    reflexivity.
  - destruct (getMovieInfo_cache_policy w "603" (replicate 30 (1%N, 0%nat)) Hlen)
      as (_ & _ & _ & H).
    destruct (H (File "{}" 1000) (VObj []) eq_refl) as (_ & _ & H' & _).
    + vm_compute. discriminate.
    + reflexivity.
    + reflexivity.
    + reflexivity.
    + exact H'.
Defined.

(** After a metadata lookup that asked the service and was given data with
    a readable [title], in a process at rest: the promise is settled by the
    error, and the data is in the cache file whether or not it came with
    one. *)
Lemma getMovieInfo_fetch_outcome (w : world) (id : string) (err data title : value)
    (sched : list (N * nat)) :
  let path := getInfoCacheFilePathFromId id in
  let s := run sched (snd (getMovieInfo id (boot w))) in
  movieInfo_response w id = (err, data) ->
  get data "title" = inl title ->
  unwritable w path = false ->
  idle s = true ->
  In (started (MovieDB_movieInfo id)) (trace s) ->
  microtasks s = [] /\ pending s = [] /\ crashed s = None /\
  length (promises s) = 14%nat /\ length (alls s) = 1%nat /\
  promise_state s 0%nat
  = Some (Settled (if isNull err then Fulfilled data else Rejected err)) /\
  exists t, lookup_file (files (env s)) path
            = Some (File (file_data (JSON_stringify data)) t) /\
            (clock w <= t)%Z.
Proof.
  intros path s. subst s path. unfold_world w. intros Hmi Hget Hw.
  set_post. machine. settle_stuck.
  explore 40%nat
    ltac:(subst Post; not_idle)
    ltac:(subst Post; cbv beta;
          let Hidle := fresh "Hidle" in
          let Hfetch := fresh "Hfetch" in
          intros Hidle Hfetch;
          first
            [ exfalso; not_in Hfetch
            | exfalso; cbv [idle microtasks pending] in Hidle; discriminate Hidle
            | do 6 (split; [reflexivity|]); cbv beta iota delta [env files];
              eexists; split; [apply lookup_file_put_eq | lia] ]).
Qed.



(** * The driver's callback *)

(** Synchronous code on a process in any state. *)
Ltac sync :=
  cbv beta iota zeta delta
    [settle resolve reject subscribe then_ catch_ new_Promise alloc_promise enqueue
     start emit modify skip throw read log Date_now
     M_bind M_ret mbind mret
     set_env set_tmdbImagesBaseUrl set_movies set_promises set_alls set_microtasks
     set_pending set_trace set_crashed
     env tmdbImagesBaseUrl movies promises alls microtasks pending trace crashed
     validateCacheFileDate getMoviePoster fst snd default from_option id].

Section fresh_promises.
Context {A : Type}.
Implicit Types (ps : list A) (a b c d x : A).

Lemma lookup_second_fresh ps a b c :
  (((ps ++ [a]) ++ [b]) ++ [c]) !! length (ps ++ [a]) = Some b.
Proof. induction ps as [|q ps IH]; [reflexivity | exact IH]. Qed.

Lemma insert_second_fresh ps a b c x :
  <[length (ps ++ [a]) := x]> (((ps ++ [a]) ++ [b]) ++ [c]) = ps ++ [a; x; c].
Proof. induction ps as [|q ps IH]; [reflexivity | simpl; f_equal; exact IH]. Qed.

Lemma lookup_third_fresh ps a b c d a' b' :
  ((ps ++ [a; b; c]) ++ [d]) !! length ((ps ++ [a']) ++ [b']) = Some c.
Proof. induction ps as [|q ps IH]; [reflexivity | exact IH]. Qed.

Lemma insert_third_fresh ps a b c d x a' b' :
  <[length ((ps ++ [a']) ++ [b']) := x]> ((ps ++ [a; b; c]) ++ [d]) = ps ++ [a; b; x; d].
Proof. induction ps as [|q ps IH]; [reflexivity | simpl; f_equal; exact IH]. Qed.

End fresh_promises.

(** What a call of [getMoviePoster] does before it returns, in a process
    in any state: four new promises, one [fs.stat] started. *)
Lemma getMoviePoster_starts (st : state) (posterFileName : string) (size : option string) :
  let p := length (promises st) in
  let sz := default "original" size in
  let destPath := getMoviePosterCachePath posterFileName sz in
  getMoviePoster posterFileName size st
  = (Normal p,
     State (env st) (tmdbImagesBaseUrl st) (movies st)
       (promises st ++
        [Pending [];
         Pending [Reaction (Some (getMoviePoster_then posterFileName destPath p)) None
                           (p + 2)%nat];
         Pending [Reaction None (Some (getMoviePoster_catch posterFileName sz p))
                           (p + 3)%nat];
         Pending []])
       (alls st) (microtasks st)
       (pending st ++ [Task (fs_stat destPath) (validateCacheFileDate_cb (p + 1)%nat)])
       (started (fs_stat destPath) :: trace st) (crashed st)).
Proof.
  destruct st as [e g m ps al mt pe tr cr].
  sync.
  rewrite lookup_second_fresh. sync.
  rewrite insert_second_fresh. rewrite lookup_third_fresh. sync.
  rewrite insert_third_fresh.
  rewrite !length_app. cbn [length]. rewrite <- !Nat.add_assoc. reflexivity.
Qed.

Section merged_objects.

Lemma assoc_absent (k : string) (o : list (string * value)) :
  k ∉ map fst o -> assoc k o = None.
Proof.
  induction o as [|[k' x] o IH]; intros H; [reflexivity|].
  simpl. destruct (String.eqb k k') eqn:E.
  - apply String.eqb_eq in E. subst k'. destruct H. left.
  - apply IH. intros H'. apply H. right. exact H'.
Qed.

(** [_.extend(o, src)]: the properties of [src] win over those of [o]. *)
Lemma assoc_extend (k : string) (o src : list (string * value)) :
  NoDup (map fst src) ->
  assoc k (extend o src) = match assoc k src with
                           | Some v => Some v
                           | None => assoc k o
                           end.
Proof.
  revert o. induction src as [|[k' x] src IH]; intros o Hnd; [reflexivity|].
  apply NoDup_cons in Hnd as [Hk' Hnd].
  change (extend o ((k', x) :: src)) with (extend (obj_set k' x o) src).
  rewrite (IH _ Hnd). simpl.
  destruct (String.eqb k k') eqn:E.
  - apply String.eqb_eq in E. subst k'.
    rewrite (assoc_absent k src Hk'). apply assoc_obj_set_eq.
  - destruct (assoc k src); [reflexivity|].
    apply assoc_obj_set_ne. intros ->. rewrite String.eqb_refl in E. discriminate E.
Qed.

Lemma keys_pick (fields : list (string * value)) (keys : list string) :
  sublist (map fst (pick (VObj fields) keys)) keys.
Proof.
  unfold pick. induction keys as [|k keys IH]; [constructor|].
  unfold omap in IH |- *. simpl.
  destruct (assoc k fields); simpl; [apply sublist_skip | apply sublist_cons]; exact IH.
Qed.

Lemma keys_obj_set (k : string) (x : value) (o : list (string * value)) :
  k ∉ map fst o -> map fst (obj_set k x o) = map fst o ++ [k].
Proof.
  induction o as [|[k' y] o IH]; intros H; [reflexivity|].
  simpl. destruct (String.eqb k k') eqn:E.
  - apply String.eqb_eq in E. subst k'. destruct H. left.
  - simpl. f_equal. apply IH. intros H'. apply H. right. exact H'.
Qed.

Lemma keys_relevant (fields : list (string * value)) (genres : value) :
  NoDup (map fst (obj_set "genres" genres (pick (VObj fields) picked))).
Proof.
  pose proof (keys_pick fields picked) as Hsub.
  assert (Hnd : NoDup picked).
  { unfold picked.
    repeat (apply NoDup_cons_2;
            [ intros H; repeat (apply elem_of_cons in H as [H|H]; [discriminate H|]);
              inversion H |]).
    apply NoDup_nil_2. }
  assert (Hg : "genres" ∉ map fst (pick (VObj fields) picked)).
  { intros H. apply (fun H => elem_of_sublist _ _ _ H Hsub) in H. unfold picked in H.
    repeat (apply elem_of_cons in H as [H|H]; [discriminate H|]). inversion H. }
  rewrite (keys_obj_set _ _ _ Hg).
  apply NoDup_app. split; [exact (sublist_NoDup _ _ Hnd Hsub)|].
  split; [| apply NoDup_singleton].
  intros k Hk Hk'. apply elem_of_cons in Hk' as [->|Hk']; [exact (Hg Hk) | inversion Hk'].
Qed.

End merged_objects.

(** The [then] callback of the driver (lines 104-116), in a process in any
    state, for the post [i] and a movie whose genres can be read: the post
    gets the relevant properties of the movie, those of the movie winning
    over its own, and one poster lookup is started, at size [original], for
    the text of the merged [poster_path]: a movie whose [poster_path] is
    [null] makes the driver look up [originalnull]. *)
Theorem main_then_merges_and_looks_up_poster (st : state) (i : nat)
    (movie fields : list (string * value)) :
  let genres := elements_of (default VUndefined (assoc "genres" fields)) in
  let relevantInfo := obj_set "genres" (VArr (map name_of genres))
                              (pick (VObj fields) picked) in
  let movie' := extend movie relevantInfo in
  let posterFileName := ToString (default VUndefined (assoc "poster_path" movie')) in
  let destPath := getMoviePosterCachePath posterFileName "original" in
  movies st !! i = Some (VObj movie) ->
  forallb defined genres = true ->
  (exists st',
     apply_handler (main_then i) (VObj fields) st = (Normal tt, st') /\
     movies st' = <[i := VObj movie']> (movies st) /\
     trace st' = started (fs_stat destPath) :: trace st /\
     pending st'
     = pending st ++ [Task (fs_stat destPath)
                           (validateCacheFileDate_cb (length (promises st) + 1)%nat)] /\
     env st' = env st /\ microtasks st' = microtasks st) /\
  (forall k, k ∈ picked ->
     assoc k movie' = match assoc k fields with
                      | Some v => Some v
                      | None => assoc k movie
                      end) /\
  assoc "genres" movie' = Some (VArr (map name_of genres)) /\
  (assoc "poster_path" fields = Some VNull ->
   destPath = "./tmdb_cache/posters/originalnull").
Proof.
  intros genres relevantInfo movie' posterFileName destPath Hi Hg.
  assert (Hinfo : getRelevantMovieInfo (VObj fields) st = (Normal relevantInfo, st)).
  { unfold getRelevantMovieInfo. cbv [mbind M_bind read get mret M_ret].
    fold genres. rewrite (genre_names_defined genres st Hg). reflexivity. }
  assert (Hpicked : forall k, k ∈ picked ->
            assoc k movie' = match assoc k fields with
                             | Some v => Some v
                             | None => assoc k movie
                             end).
  { intros k Hk. unfold movie'. rewrite assoc_extend by apply keys_relevant.
    unfold relevantInfo. rewrite assoc_obj_set_ne.
    - rewrite assoc_pick, bool_decide_eq_true_2 by exact Hk. reflexivity.
    - intros <-. unfold picked in Hk.
      repeat (apply elem_of_cons in Hk as [Hk|Hk]; [discriminate Hk|]). inversion Hk. }
  split; [|split; [exact Hpicked|split]].
  - cbv [apply_handler mbind M_bind]. rewrite Hinfo. cbv iota beta. rewrite Hi.
    fold relevantInfo movie' posterFileName.
    pose proof (getMoviePoster_starts (set_movies (<[i := VObj movie']> (movies st)) st)
                  posterFileName None) as Hstart.
    cbv zeta in Hstart. rewrite Hstart.
    eexists. split; [reflexivity|]. repeat split.
  - unfold movie'. rewrite assoc_extend by apply keys_relevant.
    unfold relevantInfo. rewrite assoc_obj_set_eq. reflexivity.
  - intros Hnull. unfold destPath, posterFileName.
    rewrite (Hpicked "poster_path"), Hnull; [reflexivity|].
    unfold picked. do 2 right. left.
Qed.

Lemma main_then_merges_and_looks_up_poster_witness :
  let st := set_movies [VObj [("tmdb_id", VStr "603"); ("title", VStr "?")]]
                       (boot (service_without_1 VNull)) in
  exists st',
    apply_handler (main_then 0)
      (VObj [("title", VStr "The Matrix"); ("poster_path", VNull)]) st = (Normal tt, st') /\
    movies st' = [VObj [("tmdb_id", VStr "603"); ("title", VStr "The Matrix");
                       ("poster_path", VNull); ("genres", VArr [])]] /\
    trace st' = [started (fs_stat "./tmdb_cache/posters/originalnull")].
Proof.
  intros st.
  destruct (main_then_merges_and_looks_up_poster st 0
              [("tmdb_id", VStr "603"); ("title", VStr "?")]
              [("title", VStr "The Matrix"); ("poster_path", VNull)] eq_refl eq_refl)
    as ((st' & H1 & H2 & H3 & _) & _).
  exists st'. split; [exact H1|]. split; [exact H2 | exact H3].
Defined.

(** * The loop over the posts *)

Section starts_rules.

Lemma starts_ret {A : Type} (a : A) : starts (mret a) [].
Proof.
  intros s. exists a, s. cbv [mret M_ret]. simpl. rewrite app_nil_r. repeat split.
Qed.

Lemma starts_bind {A B : Type} (m : M A) (k : A -> M B) (ops1 ops2 : list io_op) :
  starts m ops1 -> (forall a, starts (k a) ops2) -> starts (m ≫= k) (ops1 ++ ops2).
Proof.
  intros Hm Hk s.
  destruct (Hm s) as (a & s1 & E1 & T1 & P1 & V1 & M1 & C1 & G1).
  destruct (Hk a s1) as (b & s2 & E2 & T2 & P2 & V2 & M2 & C2 & G2).
  exists b, s2. cbv [mbind M_bind]. rewrite E1, E2.
  split; [reflexivity|].
  split; [rewrite T2, T1, map_app, rev_app_distr, app_assoc; reflexivity|].
  split; [rewrite P2, P1, app_assoc; reflexivity|].
  repeat split; congruence.
Qed.

Lemma starts_alloc_promise : starts alloc_promise [].
Proof.
  intros s. eexists _, _. split; [reflexivity|]. destruct s; simpl.
  rewrite app_nil_r. repeat split.
Qed.

Lemma starts_subscribe (p : pid) (r : reaction) : starts (subscribe p r) [].
Proof.
  intros s. unfold subscribe. destruct s as [e g m ps al mt pe tr cr]. simpl.
  destruct (ps !! p) as [[rs|o]|]; eexists _, _; (split; [reflexivity|]); simpl;
    rewrite app_nil_r; repeat split.
Qed.

Lemma starts_then (p : pid) (h : handler) : starts (then_ p h) [].
Proof.
  unfold then_.
  apply (starts_bind _ _ [] []); [apply starts_alloc_promise|]. intros d.
  apply (starts_bind _ _ [] []); [apply starts_subscribe|]. intros _.
  apply starts_ret.
Qed.

Lemma starts_catch (p : pid) (h : handler) : starts (catch_ p h) [].
Proof.
  unfold catch_.
  apply (starts_bind _ _ [] []); [apply starts_alloc_promise|]. intros d.
  apply (starts_bind _ _ [] []); [apply starts_subscribe|]. intros _.
  apply starts_ret.
Qed.

Lemma starts_start (op : io_op) (cb : callback) : starts (start op cb) [op].
Proof.
  intros s. eexists _, _. split; [reflexivity|]. destruct s; simpl.
  rewrite map_app. repeat split.
Qed.

Lemma starts_new_Promise (executor : pid -> M unit) (ops : list io_op) :
  (forall p, starts (executor p) ops) -> starts (new_Promise executor) ops.
Proof.
  intros He s. unfold new_Promise.
  destruct (starts_alloc_promise s) as (p & s1 & E1 & T1 & P1 & V1 & M1 & C1 & G1).
  rewrite E1.
  destruct (He p s1) as (u & s2 & E2 & T2 & P2 & V2 & M2 & C2 & G2).
  rewrite E2. exists p, s2. split; [reflexivity|].
  rewrite app_nil_r in P1. simpl in T1.
  repeat split; congruence.
Qed.

Lemma starts_Promise_all_subscribe (a : nat) (q : pid) (i : nat) (ps : list pid) :
  starts (Promise_all_subscribe a q i ps) [].
Proof.
  revert i. induction ps as [|p ps IH]; intros i; [apply starts_ret|].
  simpl.
  apply (starts_bind _ _ [] []); [apply starts_alloc_promise|]. intros d.
  apply (starts_bind _ _ [] []); [apply starts_subscribe|]. intros _.
  apply IH.
Qed.

Lemma starts_Promise_all (p1 p2 : pid) : starts (Promise_all [p1; p2]) [].
Proof.
  unfold Promise_all.
  apply (starts_bind _ _ [] []); [apply starts_alloc_promise|]. intros q.
  apply (starts_bind _ _ [] []).
  { intros s. eexists _, _. split; [reflexivity|]. destruct s; simpl.
    rewrite app_nil_r. repeat split. }
  intros a.
  apply (starts_bind _ _ [] []); [apply starts_Promise_all_subscribe|]. intros _.
  apply (starts_bind _ _ [] []); [apply starts_ret|]. intros _.
  apply starts_ret.
Qed.

Lemma starts_validateCacheFile (filePath : string) :
  starts (validateCacheFile filePath) [fs_stat filePath; fs_readFile filePath].
Proof.
  unfold validateCacheFile.
  apply (starts_bind _ _ [fs_stat filePath] [fs_readFile filePath]).
  { apply starts_new_Promise. intros p. apply starts_start. }
  intros d.
  apply (starts_bind _ _ [fs_readFile filePath] []).
  { apply starts_new_Promise. intros p. apply starts_start. }
  intros c.
  apply starts_new_Promise. intros p.
  apply (starts_bind _ _ [] []); [apply starts_Promise_all|]. intros a.
  apply (starts_bind _ _ [] []); [apply starts_then|]. intros t.
  apply (starts_bind _ _ [] []); [apply starts_catch|]. intros _.
  apply starts_ret.
Qed.

Lemma starts_getMovieInfo (tmdb_id : string) :
  starts (getMovieInfo tmdb_id)
         [fs_stat (getInfoCacheFilePathFromId tmdb_id);
          fs_readFile (getInfoCacheFilePathFromId tmdb_id)].
Proof.
  unfold getMovieInfo. apply starts_new_Promise. intros p.
  apply (starts_bind _ _ [_; _] []); [apply starts_validateCacheFile|]. intros v.
  apply (starts_bind _ _ [] []); [apply starts_then|]. intros t.
  apply (starts_bind _ _ [] []); [apply starts_catch|]. intros _.
  apply starts_ret.
Qed.

End starts_rules.

Lemma starts_lookup (tmdb_id : string) (i : nat) :
  starts (p ← getMovieInfo tmdb_id; t ← then_ p (main_then i);
          _ ← catch_ t main_catch; skip)
         [fs_stat (getInfoCacheFilePathFromId tmdb_id);
          fs_readFile (getInfoCacheFilePathFromId tmdb_id)].
Proof.
  apply (starts_bind _ _ [_; _] []); [apply starts_getMovieInfo|]. intros p.
  apply (starts_bind _ _ [] []); [apply starts_then|]. intros t.
  apply (starts_bind _ _ [] []); [apply starts_catch|]. intros _.
  apply starts_ret.
Qed.

Lemma filter_network_first_events (w : world) (items : list item) :
  filter is_network (flat_map (first_events w) items) = [].
Proof.
  induction items as [|rawMovie items IH]; [reflexivity|].
  simpl. rewrite filter_app, IH, app_nil_r.
  unfold first_events, lookups.
  destruct (getMetaValue "tmdb_id" (postmeta rawMovie)) as [| |[|]| | | | |]; reflexivity.
Qed.

Lemma bind_normal {A B : Type} (m : M A) (k : A -> M B) (s s' : state) (a : A) :
  m s = (Normal a, s') -> (m ≫= k) s = k a s'.
Proof. intros H. cbv [mbind M_bind]. rewrite H. reflexivity. Qed.

(** One round of the loop for a post without [tmdb_id], and for one with. *)
Lemma main_loop_missing (rawMovie : item) (items : list item) (i : nat) (s : state) :
  getMetaValue "tmdb_id" (postmeta rawMovie) = VBool false ->
  main_loop i (rawMovie :: items) s
  = main_loop (S i) items
      (set_movies
         (<[i := VObj (obj_set "imdb_id" (getMetaValue "imdb_id" (postmeta rawMovie))
                         (movie_of rawMovie))]> (movies s ++ [VObj (movie_of rawMovie)]))
         (set_trace
            (console_log [VStr ("Missing tmdb_id: " +:+ toDateString (env s) (pubDate rawMovie)
                                +:+ " undefined")] :: trace s) s)).
Proof.
  intros Hv. pose proof (movie_of_has_no_title rawMovie) as Ht.
  cbn [main_loop]. cbv zeta. fold (movie_of rawMovie). rewrite Hv.
  cbv [mbind M_bind modify log emit]. rewrite Ht.
  destruct s; reflexivity.
Qed.

Lemma main_loop_lookup (rawMovie : item) (items : list item) (i : nat) (s : state) :
  getMetaValue "tmdb_id" (postmeta rawMovie) <> VBool false ->
  exists s1,
    main_loop i (rawMovie :: items) s = main_loop (S i) items s1 /\
    trace s1 = rev (map started (lookups rawMovie)) ++ trace s /\
    map task_op (pending s1) = map task_op (pending s) ++ lookups rawMovie /\
    env s1 = env s /\ crashed s1 = crashed s /\
    movies s1 = movies s ++ [VObj (movie_of rawMovie)].
Proof.
  intros Hv. cbn [main_loop]. cbv zeta. fold (movie_of rawMovie).
  erewrite bind_normal by reflexivity. cbv beta.
  set (s0 := set_movies (movies s ++ [VObj (movie_of rawMovie)]) s).
  assert (Hs0 : trace s0 = trace s /\ pending s0 = pending s /\ env s0 = env s /\
                crashed s0 = crashed s /\
                movies s0 = movies s ++ [VObj (movie_of rawMovie)])
    by (subst s0; destruct s; repeat split).
  destruct Hs0 as (T0 & P0 & V0 & C0 & L0).
  unfold lookups.
  destruct (getMetaValue "tmdb_id" (postmeta rawMovie))
    as [| |[|]|num|str|arr|obj|name msg] eqn:Hid; try (destruct Hv; reflexivity);
    match goal with
    | |- context [getMovieInfo ?id] =>
        destruct (starts_lookup id i s0) as ([] & st & E & T & P & V & M & C & G)
    end;
    exists st; (split; [erewrite bind_normal by exact E; reflexivity|]);
    rewrite T, P, V, M, C, T0, P0, V0, C0, L0; repeat split.
Qed.

Lemma main_loop_starts (items : list item) (i : nat) (s : state) :
  exists s',
    main_loop i items s = (Normal tt, s') /\
    trace s' = rev (flat_map (first_events (env s)) items) ++ trace s /\
    map task_op (pending s') = map task_op (pending s) ++ flat_map lookups items /\
    env s' = env s /\ crashed s' = crashed s /\
    length (movies s') = (length (movies s) + length items)%nat.
Proof.
  revert i s. induction items as [|rawMovie items IH]; intros i s.
  - exists s. simpl. rewrite app_nil_r, Nat.add_0_r. repeat split.
  - assert (Hd : getMetaValue "tmdb_id" (postmeta rawMovie) = VBool false \/
                 getMetaValue "tmdb_id" (postmeta rawMovie) <> VBool false)
      by (destruct (getMetaValue "tmdb_id" (postmeta rawMovie)) as [| |[|]| | | | |];
          first [left; reflexivity | right; discriminate]).
    destruct Hd as [Hv|Hv].
    + rewrite (main_loop_missing rawMovie items i s Hv).
      match goal with |- context [main_loop _ _ ?st] => set (s1 := st) end.
      destruct (IH (S i) s1) as (s2 & E2 & T2 & P2 & V2 & C2 & L2).
      assert (Hs1 : trace s1 = rev (first_events (env s) rawMovie) ++ trace s /\
                    pending s1 = pending s /\ env s1 = env s /\ crashed s1 = crashed s /\
                    length (movies s1) = S (length (movies s))).
      { subst s1. unfold first_events. rewrite Hv. destruct s; simpl.
        rewrite length_insert, length_app. simpl. repeat split. lia. }
      destruct Hs1 as (T1 & P1 & V1 & C1 & L1).
      exists s2. rewrite E2, T2, P2, V2, C2, L2, T1, P1, V1, C1, L1.
      cbn [flat_map length].
      replace (lookups rawMovie) with (@nil io_op) by (unfold lookups; rewrite Hv; reflexivity).
      rewrite rev_app_distr, <- !app_assoc.
      repeat split. lia.
    + destruct (main_loop_lookup rawMovie items i s Hv)
        as (s1 & E1 & T1 & P1 & V1 & C1 & L1).
      destruct (IH (S i) s1) as (s2 & E2 & T2 & P2 & V2 & C2 & L2).
      exists s2. rewrite E1, E2, T2, P2, V2, C2, L2, T1, P1, V1, C1, L1.
      cbn [flat_map length]. rewrite length_app, rev_app_distr, <- !app_assoc.
      cbn [length].
      assert (Hev : first_events (env s) rawMovie = map started (lookups rawMovie)).
      { unfold first_events.
        destruct (getMetaValue "tmdb_id" (postmeta rawMovie)) as [| |[|]| | | | |];
          try reflexivity. destruct Hv. reflexivity. }
      rewrite Hev. repeat split. lia.
Qed.

(** The loop returns after starting, for each post that has a [tmdb_id],
    the two file operations of its cache lookup, in the order of the posts,
    and after logging one line for each post that has none: every lookup of
    the batch is started before any result is handled, and no request goes
    to the service before the loop returns. *)
Theorem main_starts_every_lookup (items : list item) (w : world) :
  let r := main items (boot w) in
  fst r = Normal tt /\
  history (snd r) = flat_map (first_events w) items /\
  map task_op (pending (snd r)) = flat_map lookups items /\
  filter is_network (history (snd r)) = [] /\
  env (snd r) = w /\ crashed (snd r) = None /\
  length (movies (snd r)) = length items.
Proof.
  intros r. subst r. unfold main.
  destruct (main_loop_starts items 0 (boot w)) as (s' & E & T & P & V & C & L).
  rewrite E. cbv [fst snd]. unfold history. rewrite T.
  simpl. rewrite app_nil_r, rev_involutive.
  split; [reflexivity|]. split; [reflexivity|]. split; [exact P|].
  split; [apply filter_network_first_events|].
  split; [exact V|]. split; [exact C | exact L].
Qed.

(** The post object before the lookup: the properties from the categories
    never replace [date], [content] or [tmdb_id] (a category with such a
    name is a feature), so the test of [movie.tmdb_id] sees the metadata
    value; and the object has no [title]. *)
Theorem movie_of_keeps_fields (rawMovie : item) :
  assoc "date" (movie_of rawMovie) = Some (VStr (pubDate rawMovie)) /\
  assoc "content" (movie_of rawMovie) = Some (VStr (content_encoded rawMovie)) /\
  assoc "tmdb_id" (movie_of rawMovie) = Some (getMetaValue "tmdb_id" (postmeta rawMovie)) /\
  assoc "title" (movie_of rawMovie) = None /\
  assoc "features" (processWPCategories ["tmdb_id"; "date"])
  = Some (VArr [VStr "tmdb_id"; VStr "date"]).
Proof.
  unfold movie_of.
  repeat split;
    try (rewrite assoc_extend_absent;
         [reflexivity | apply processWPCategories_other_keys; discriminate]).
Qed.

(** A batch of one post whose metadata is not usable from the cache and
    whose fetch fails with data that has a readable [title]: the rejection
    reaches the [catch] callback of the driver, which logs it; the post is
    left as it was built, no poster is looked up, and the process comes to
    rest. *)
Theorem main_logs_rejection (w : world) (rawMovie : item) (id : string)
    (err data : value) (sched : list (N * nat)) :
  let cacheFilePath := getInfoCacheFilePathFromId id in
  getMetaValue "tmdb_id" (postmeta rawMovie) = VStr id ->
  movieInfo_response w id = (err, data) ->
  isNull err = false -> isNull data = false -> isUndefined data = false ->
  (files w !! cacheFilePath = None \/
   (exists f, files w !! cacheFilePath = Some f /\
              ((mtime f + defaultTtl < clock w)%Z \/ not_json_start (contents f) = true))) ->
  (40 <= length sched)%nat ->
  let s := run sched (snd (main [rawMovie] (boot w))) in
  idle s = true /\ crashed s = None /\
  In (console_log [VStr "getMovieInfo:err => "; err]) (trace s) /\
  movies s = [VObj (movie_of rawMovie)] /\
  filter is_network (history s) = [started (MovieDB_movieInfo id)] /\
  tmdbImagesBaseUrl s = VUndefined.
Proof.
  intros cacheFilePath Hid Hmi Herr Hnull Hundef Hmiss Hlen s. subst s cacheFilePath.
  unfold_world w.
  destruct (get_defined data "title" Hnull Hundef) as [title Hget].
  destruct Hmiss as [Hf|([c T] & Hf & [Hstale|Hparse])]; cbv [mtime contents] in *;
    [ | | apply JSON_parse_not_json in Hparse ];
    set_post; unfold main; cbn [main_loop]; rewrite Hid;
    change (ToString (VStr id)) with id; machine; settle_stuck;
    explore 50%nat ltac:(stop_short Hlen)
      ltac:(subst Post; cbv beta;
            split; [reflexivity|]; split; [reflexivity|]; split; [in_list|];
            split; [unfold movie_of; rewrite Hid; reflexivity|];
            split; reflexivity).
Qed.

Lemma main_logs_rejection_witness :
  let rawMovie := Item "Mon, 01 Jan 2018 10:00:00 +0000" "<p>first</p>" ["home"]
                       [("tmdb_id", "1")] in
  let s := run (replicate 40 (1%N, 0%nat))
               (snd (main [rawMovie] (boot (service_without_1 (VObj []))))) in
  In (console_log [VStr "getMovieInfo:err => "; VError "Error" "Not Found"]) (trace s) /\
  filter is_network (history s) = [started (MovieDB_movieInfo "1")].
Proof.
  intros rawMovie s.
  destruct (main_logs_rejection (service_without_1 (VObj [])) rawMovie "1"
              (VError "Error" "Not Found") (VObj []) (replicate 40 (1%N, 0%nat))
              eq_refl eq_refl eq_refl eq_refl eq_refl) as (_ & _ & H1 & _ & H2 & _).
  - left. reflexivity.
  - simpl. lia.
  - split; [exact H1 | exact H2].
Defined.
